(** * ChipfabrikMySqlContentStorage: a content store over MySQL and the file system

    A shallow embedding of [examples/chipfabrikMySqlContentStorage.ts]: the
    class keeps the metadata and parameter documents of every content item
    in one relational table and the item's files in a directory tree
    [<contentPath>/<contentId>/...].

    The class is written against three platforms, which are modelled here
    as far as the class uses them:
    - Node's [path] module (POSIX flavour) and [fs-extra], as operations on
      a map from resolved paths to file-system nodes;
    - [glob], for the one pattern the class builds ([<dir>/**/*.*] with
      [nodir]);
    - one [mysql] connection, as a table with an AUTO_INCREMENT counter and
      the queue of statements that were sent but not yet run.

    Every method of the class is a computation in a state-and-error monad;
    each platform call appends an event to a trace, so that the order of
    the effects of a method can be stated. *)

From Stdlib Require Import ZArith NArith Lia Ascii String.
From stdpp Require Import base option list strings pretty gmap sets.

#[local] Set Warnings "-register-all".

Local Open Scope string_scope.
Local Open Scope N_scope.
Local Open Scope list_scope.

(** ** JavaScript values *)

(** The documents ([IContentMetadata], [ContentParameters]) are JSON
    values; [JNull] is also what [getMetadata] and [getParameters] resolve
    to when no row is found. *)
Inductive json : Type :=
| JNull
| JBool (b : bool)
| JNumber (z : Z)
| JString (s : string)
| JArray (items : list json)
| JObject (fields : list (string * json)).

(** [ILibraryName] *)
Record ILibraryName : Type := {
  machineName : string;
  majorVersion : N;
  minorVersion : N
}.

(** Modelled from the spec: the declaration of [ContentId] is not among the
    sources; the data model gives the id as the integer of the table's
    [id INT UNSIGNED AUTO_INCREMENT] column. Where the class builds a path
    from an id, the id is its decimal rendering: the methods are typed to
    receive the id as a string, and the table compares its [id] column
    with the number the string denotes. (Whether a caller holds the id as
    a JavaScript number or as a string is not part of the model.) *)
Definition ContentId : Type := N.

(** An argument that may be left out ([contentId?: ContentId]) or be
    [null]: [addContent] tests for both, [fileExists] for [undefined]
    only. *)
Inductive IdArg : Type :=
| undefined
| null
| Id (contentId : ContentId).

(** The errors a method can be rejected with. *)
Inductive Error : Type :=
| InvalidFilename (filename : string)      (* thrown by [checkFilename] *)
| H5pError (errorId : string) (httpStatusCode : N)
| TypeError                                (* [path.join] on a non-string, a property of [null] or [undefined] *)
| RangeError                               (* [createReadStream] with start > end *)
| SyntaxError                              (* [JSON.parse] *)
| FsError (code : string)
| SqlError (code : string).

(** ** Paths *)

(** A resolved path: the names from the root directory downwards, without
    [.], [..] or empty names. The root is the empty list. *)
Abbreviation path := (list string).

(** [s.split('/')] *)
Fixpoint segments (s : string) : list string :=
  match s with
  | EmptyString => [EmptyString]
  | String c rest =>
      if Ascii.eqb c "/"%char
      then EmptyString :: segments rest
      else match segments rest with
           | seg :: segs => String c seg :: segs
           | [] => [String c EmptyString]
           end
  end.

(** One step of the normalisation of POSIX [path.normalize]: empty names
    and [.] are dropped, [..] leaves the directory reached so far (and
    stays at the root). *)
Definition norm_step (acc : path) (seg : string) : path :=
  if bool_decide (seg = EmptyString ∨ seg = ".") then acc
  else if bool_decide (seg = "..") then removelast acc
  else acc ++ [seg].

Definition normalize_from (base : path) (segs : list string) : path :=
  fold_left norm_step segs base.

(** [path.join] gives an absolute path exactly when its first non-empty
    argument starts with a slash. *)
Definition is_absolute (parts : list string) : bool :=
  match filter (λ s, s ≠ EmptyString) parts with
  | String c _ :: _ => Ascii.eqb c "/"%char
  | _ => false
  end.

(** [path.join(...parts)], followed by the resolution against the working
    directory that every file-system call applies to a relative path. *)
Definition path_join (cwd : path) (parts : list string) : path :=
  normalize_from (if is_absolute parts then [] else cwd)
                 (flat_map segments parts).

(** [path.dirname] of a resolved path. *)
Definition path_dirname (p : path) : path := removelast p.

(** [path.relative(from, to)] for a [to] below [from], written with
    slashes. For a [to] that is not below [from] the result starts with
    [..]; the class never asks for that. *)
Definition path_relative (from to : path) : string :=
  String.concat "/" (drop (length from) to).

(** Decimal rendering of an id, as the id appears in a path. *)
Definition decimal (n : N) : string := pretty n.

(** ** The file system *)

(** What a path leads to: a regular file with its bytes, or a directory.
    (Links, devices and permissions play no part in the class.) *)
Inductive Node : Type :=
| NFile (data : list Byte.byte)
| NDir.

(** The file system as a finite map from resolved paths to nodes. The root
    directory always exists and has no entry. *)
Abbreviation FS := (gmap path Node).

(** [fs.stat] as far as [IFileStats] shows it. *)
Record Stats : Type := {
  isFile : bool;
  size : N
}.

(** [fsExtra.pathExists]: files and directories alike. *)
Definition fs_pathExists (p : path) (fs : FS) : bool :=
  match fs !! p with
  | Some _ => true
  | None => bool_decide (p = [])
  end.

(** [fsExtra.remove]: the node and everything below it; nothing happens
    when the path does not exist. *)
Definition fs_remove (p : path) (fs : FS) : FS :=
  filter (λ kv, ¬ p `prefix_of` kv.1) fs.

(** [fsExtra.ensureDir]: creates the directory and the missing ones above
    it, from [base] downwards; fails at a name that is a regular file,
    with [EEXIST] when that is the directory asked for and with [ENOTDIR]
    when it lies above it. *)
Fixpoint fs_mkdirs (base : path) (names : list string) (fs : FS) : Error + FS :=
  match names with
  | [] => inr fs
  | name :: names' =>
      let d := base ++ [name] in
      match fs !! d with
      | Some (NFile _) => inl (FsError (if names' is [] then "EEXIST" else "ENOTDIR"))
      | _ => fs_mkdirs d names' (<[d := NDir]> fs)
      end
  end.

Definition fs_ensureDir (p : path) (fs : FS) : Error + FS :=
  fs_mkdirs [] p fs.

Definition fs_isDir (p : path) (fs : FS) : bool :=
  match fs !! p with
  | Some NDir => true
  | Some (NFile _) => false
  | None => bool_decide (p = [])
  end.

(** [fsExtra.createWriteStream(p)] with the whole source piped into it:
    the file is created or replaced; it is an error when [p] is a directory
    ([EISDIR]) or when the directory of [p] is missing ([ENOENT]). *)
Definition fs_write (p : path) (data : list Byte.byte) (fs : FS) : Error + FS :=
  if fs_isDir p fs then inl (FsError "EISDIR")
  else if fs_isDir (removelast p) fs then inr (<[p := NFile data]> fs)
  else inl (FsError "ENOENT").

(** [fs.stat]: the size of a regular file is the number of its bytes;
    the size of a directory is whatever the file system reports for it
    ([directory_size], for instance 4096 for a small directory on ext4). *)
Definition fs_stat (directory_size : path → FS → N) (p : path) (fs : FS) : option Stats :=
  match fs !! p with
  | Some (NFile data) => Some {| isFile := true; size := N.of_nat (length data) |}
  | Some NDir => Some {| isFile := false; size := directory_size p fs |}
  | None =>
      if bool_decide (p = []) then Some {| isFile := false; size := directory_size p fs |}
      else None
  end.

(** *** glob *)

Definition starts_with_dot (name : string) : bool :=
  match name with
  | String c _ => Ascii.eqb c "."%char
  | EmptyString => false
  end.

Fixpoint contains_dot (name : string) : bool :=
  match name with
  | String c rest => Ascii.eqb c "."%char || contains_dot rest
  | EmptyString => false
  end.

(** minimatch of a name against [*.*] without the [dot] option: the name
    holds a dot and does not start with one. *)
Definition matches_star_dot_star (name : string) : bool :=
  negb (starts_with_dot name) && contains_dot name.

(** [**] without the [dot] option walks through any number of directories
    but never into one whose name starts with a dot. *)
Definition globstar_walks (dirs : list string) : bool :=
  forallb (λ d, negb (starts_with_dot d)) dirs.

(** Whether the names from the directory of the pattern down to a file
    are matched by [**/*.*]. *)
Definition glob_selects (rel : path) : bool :=
  match last rel with
  | Some name => matches_star_dot_star name && globstar_walks (removelast rel)
  | None => false
  end.

(** Whether the node [n] at [p] is matched by [<dir>/**/*.*] with
    [nodir: true]. The directory part of the pattern is a literal: ids are
    digits, and [contentPath] is taken without glob characters. *)
Definition glob_matches (dir p : path) (n : Node) : bool :=
  match n with
  | NDir => false
  | NFile _ => bool_decide (dir `prefix_of` p) && glob_selects (drop (length dir) p)
  end.

(** The matches come in the order of the map, which stands for "no
    particular order". *)
Definition fs_glob (dir : path) (fs : FS) : list path :=
  (filter (λ kv, glob_matches dir kv.1 kv.2 = true) (map_to_list fs)).*1.

(** In a file system every entry lies in a directory: the path of an
    entry is not the root, and the path above it is the root or a
    directory. *)
Definition in_directory (fs : FS) (p : path) : bool :=
  match p with
  | [] => false
  | _ => fs_isDir (removelast p) fs
  end.

Definition fs_wf (fs : FS) : Prop :=
  map_Forall (λ p _, in_directory fs p = true) fs.

#[export] Instance fs_wf_dec (fs : FS) : Decision (fs_wf fs).
Proof. unfold fs_wf. apply _. Defined.

(** *** Read streams *)

(** The stream [fsExtra.createReadStream(p, {start, end})] returns: nothing
    is read before the stream is consumed. *)
Record ReadStream : Type := {
  rs_path : path;
  rs_start : option N;
  rs_end : option N
}.

(** The bytes a read stream delivers when it is consumed: from offset
    [start] (default 0) up to and including offset [end] (default: the end
    of the file). *)
Definition stream_bytes (fs : FS) (rs : ReadStream) : Error + list Byte.byte :=
  match fs !! rs_path rs with
  | Some (NFile data) =>
      let from := default 0 (rs_start rs) in
      let rest := drop (N.to_nat from) data in
      inr match rs_end rs with
          | Some to => take (N.to_nat (to + 1 - from)) rest
          | None => rest
          end
  | Some NDir => inl (FsError "EISDIR")
  | None => inl (FsError (if bool_decide (rs_path rs = []) then "EISDIR" else "ENOENT"))
  end.

(** ** The table *)

(** A row of [content(id, content, metadata)]: the two JSON columns hold
    the text they were given. *)
Record Row : Type := {
  row_content : string;
  row_metadata : string
}.

(** The table with its AUTO_INCREMENT counter. The key of the map is the
    primary key [id]. *)
Record Server : Type := {
  rows : gmap N Row;
  auto_increment : N
}.

(** The statements the class sends, with their parameters. *)
Inductive Statement : Type :=
| UpdateContent (metadataJson contentJson : string) (id : ContentId)
| InsertContent (metadataJson contentJson : string)
| SelectCount (id : ContentId)
| DeleteContent (id : ContentId)
| SelectMetadata (id : ContentId)
| SelectContent (id : ContentId)
| SelectIds.

(** What the callback of a statement receives as [results]. *)
Inductive Results : Type :=
| OkPacket (insertId affectedRows : N)
| CountRow (count : N)
| TextRows (texts : list string)
| IdRows (ids : list ContentId).

(** What a platform call leaves in the trace. *)
Inductive FsCall : Type :=
| PathExists | Remove | EnsureDir | CreateWriteStream | Stat | CreateReadStream | Glob.

(** [EvUncaught e]: the exception [e] left the callback of a statement;
    nothing in the class catches it. *)
Inductive Event : Type :=
| EvFs (call : FsCall) (p : path)
| EvQuery (q : Statement)
| EvUncaught (e : Error).

(** ** State and computations *)

Record State : Type := {
  fs : FS;
  server : Server;
  pending : list Statement;
  trace : list Event
}.

(** The store after [init] on a new database and an empty disk:
    [CREATE TABLE IF NOT EXISTS] gives an empty table whose counter starts
    at 1 (and leaves a table that exists as it is). *)
Definition initial_state : State :=
  {| fs := ∅;
     server := {| rows := ∅; auto_increment := 1 |};
     pending := [];
     trace := [] |}.

(** How the promise of a method ends. [Unsettled]: neither [resolve] nor
    [reject] is ever called, and whoever awaits the promise waits for
    ever. *)
Inductive Outcome (A : Type) : Type :=
| Resolved (a : A)
| Rejected (e : Error)
| Unsettled.
Arguments Resolved {A} a.
Arguments Rejected {A} e.
Arguments Unsettled {A}.

Definition M (A : Type) : Type := State → Outcome A * State.

#[export] Instance M_ret : MRet M := λ A a st, (Resolved a, st).
#[export] Instance M_bind : MBind M := λ A B f c st,
  match c st with
  | (Resolved a, st') => f a st'
  | (Rejected e, st') => (Rejected e, st')
  | (Unsettled, st') => (Unsettled, st')
  end.

Definition throw {A : Type} (e : Error) : M A := λ st, (Rejected e, st).

Definition set_fs (fs' : FS) (st : State) : State :=
  {| fs := fs'; server := server st; pending := pending st; trace := trace st |}.

Definition log (e : Event) (st : State) : State :=
  {| fs := fs st; server := server st; pending := pending st; trace := trace st ++ [e] |}.

(** An exception thrown inside the callback of a statement before the
    promise was settled: the exception is uncaught and the promise stays
    as it is. *)
Definition uncaught {A : Type} (e : Error) : M A := λ st,
  (Unsettled, log (EvUncaught e) st).

(** [reject(error)] inside such a callback, which then goes on and throws
    [e]: the promise is rejected with [error], the exception is
    uncaught. *)
Definition reject_then_throw {A : Type} (error e : Error) : M A := λ st,
  (Rejected error, log (EvUncaught e) st).

(** ** Property access and comparison on documents *)

(** [o[name]] on the fields of an object; of two fields with one name the
    later one counts, as after [JSON.parse]. *)
Fixpoint object_get (name : string) (fields : list (string * json)) : option json :=
  match fields with
  | [] => None
  | (k, v) :: rest =>
      match object_get name rest with
      | Some v' => Some v'
      | None => if String.eqb k name then Some v else None
      end
  end.

(** [o[name]] on a value that is not [null]; [None] is [undefined]. *)
Definition property_of (o : json) (name : string) : option json :=
  match o with
  | JObject fields => object_get name fields
  | _ => None
  end.

(** [v === s] for a string [s]. *)
Definition strict_eq_string (v : option json) (s : string) : bool :=
  match v with
  | Some (JString s') => String.eqb s' s
  | _ => false
  end.

Definition strict_eq_number (v : option json) (z : Z) : bool :=
  match v with
  | Some (JNumber z') => Z.eqb z' z
  | _ => false
  end.

(** The result of [getUsage]. *)
Record Usage : Type := {
  asDependency : N;
  asMainLibrary : N
}.

(** The enumeration [Permission]. *)
Module Permission.
Inductive t : Type :=
| Delete | Download | Edit | Embed | View.
End Permission.

(** ** Instances of the imported functions

    The class imports [JSON], [hasDependencyOn] and [checkFilename]; the
    development is parametric in them. The instances below serve the
    examples: they are run on concrete stores. *)

Module Json.

Definition dquote : Ascii.ascii := "034"%char.
Definition backslash : Ascii.ascii := "092"%char.

Fixpoint escape (s : string) : string :=
  match s with
  | EmptyString => EmptyString
  | String c rest =>
      if Ascii.eqb c dquote || Ascii.eqb c backslash
      then String backslash (String c (escape rest))
      else String c (escape rest)
  end.

Definition quoted (s : string) : string :=
  String dquote (escape s +:+ String dquote EmptyString).

(** [JSON.stringify] on documents: no white space, fields in the order
    of the object. *)
Fixpoint stringify (j : json) : string :=
  match j with
  | JNull => "null"
  | JBool true => "true"
  | JBool false => "false"
  | JNumber z => pretty z
  | JString s => quoted s
  | JArray items => "[" +:+ String.concat "," (map stringify items) +:+ "]"
  | JObject fields =>
      "{" +:+ String.concat ","
                (map (λ kv, let '(k, v) := kv in quoted k +:+ ":" +:+ stringify v) fields)
          +:+ "}"
  end.

(** [text] without the leading [word], when it starts with it. *)
Fixpoint after (word text : string) : option string :=
  match word, text with
  | EmptyString, _ => Some text
  | String a word', String b text' => if Ascii.eqb a b then after word' text' else None
  | String _ _, EmptyString => None
  end.

(** The characters up to the closing quote, and the text behind it. *)
Fixpoint read_chars (text : string) : option (string * string) :=
  match text with
  | EmptyString => None
  | String c rest =>
      if Ascii.eqb c dquote then Some (EmptyString, rest)
      else if Ascii.eqb c backslash then
        match rest with
        | String c' rest' =>
            '(s, out) ← read_chars rest'; Some (String c' s, out)
        | EmptyString => None
        end
      else '(s, out) ← read_chars rest; Some (String c s, out)
  end.

Definition digit_of (c : Ascii.ascii) : option N :=
  let n := Ascii.N_of_ascii c in
  if (48 <=? n) && (n <=? 57) then Some (n - 48) else None.

Fixpoint read_digits (acc : N) (text : string) : N * string :=
  match text with
  | String c rest =>
      match digit_of c with
      | Some d => read_digits (10 * acc + d) rest
      | None => (acc, text)
      end
  | EmptyString => (acc, text)
  end.

Definition starts_with_digit (text : string) : bool :=
  match text with
  | String c _ => bool_decide (is_Some (digit_of c))
  | EmptyString => false
  end.

(** A value at the start of [text], and the text behind it. *)
Fixpoint read_value (fuel : nat) (text : string) : option (json * string) :=
  match fuel with
  | O => None
  | S fuel' =>
      if after "null" text is Some out then Some (JNull, out)
      else if after "true" text is Some out then Some (JBool true, out)
      else if after "false" text is Some out then Some (JBool false, out)
      else if after (String dquote EmptyString) text is Some out then
        '(s, out') ← read_chars out; Some (JString s, out')
      else if after "-" text is Some out then
        if starts_with_digit out
        then let '(n, out') := read_digits 0 out in Some (JNumber (- Z.of_N n), out')
        else None
      else if starts_with_digit text then
        let '(n, out) := read_digits 0 text in Some (JNumber (Z.of_N n), out)
      else if after "[]" text is Some out then Some (JArray [], out)
      else if after "[" text is Some out then
        '(items, out') ← read_items fuel' out; Some (JArray items, out')
      else if after "{}" text is Some out then Some (JObject [], out)
      else if after "{" text is Some out then
        '(fields, out') ← read_fields fuel' out; Some (JObject fields, out')
      else None
  end
with read_items (fuel : nat) (text : string) : option (list json * string) :=
  match fuel with
  | O => None
  | S fuel' =>
      '(item, out) ← read_value fuel' text;
      if after "," out is Some out' then
        '(items, out'') ← read_items fuel' out'; Some (item :: items, out'')
      else if after "]" out is Some out' then Some ([item], out')
      else None
  end
with read_fields (fuel : nat) (text : string) : option (list (string * json) * string) :=
  match fuel with
  | O => None
  | S fuel' =>
      out0 ← after (String dquote EmptyString) text;
      '(k, out1) ← read_chars out0;
      out2 ← after ":" out1;
      '(v, out) ← read_value fuel' out2;
      if after "," out is Some out' then
        '(fields, out'') ← read_fields fuel' out'; Some ((k, v) :: fields, out'')
      else if after "}" out is Some out' then Some ([(k, v)], out')
      else None
  end.

(** [JSON.parse] on the texts [stringify] writes: the whole text has to
    be one value. *)
Definition parse (text : string) : option json :=
  match read_value (S (String.length text)) text with
  | Some (j, EmptyString) => Some j
  | _ => None
  end.

End Json.

(** A dependency checker: the library is named, with its version, in the
    [preloadedDependencies] of the metadata. *)
Definition names_library (library : ILibraryName) (entry : json) : bool :=
  match entry with
  | JObject fields =>
      strict_eq_string (object_get "machineName" fields) (machineName library)
      && strict_eq_number (object_get "majorVersion" fields) (Z.of_N (majorVersion library))
      && strict_eq_number (object_get "minorVersion" fields) (Z.of_N (minorVersion library))
  | _ => false
  end.

Definition preloads (metadata : json) (library : ILibraryName) : bool :=
  match metadata with
  | JObject fields =>
      match object_get "preloadedDependencies" fields with
      | Some (JArray entries) => existsb (names_library library) entries
      | _ => false
      end
  | _ => false
  end.

(** A filename is confined when following it from a directory never leaves
    that directory and ends below it: no segment is [..], and some segment
    is a name. *)
Definition is_name (seg : string) : bool :=
  negb (bool_decide (seg = EmptyString ∨ seg = ".")).

Definition confined (filename : string) : Prop :=
  (".." ∉ segments filename) ∧
  (filter (λ seg, is_name seg = true) (segments filename) ≠ []).

#[export] Instance confined_dec (filename : string) : Decision (confined filename).
Proof. unfold confined. apply _. Defined.

Fixpoint all_chars (ok : Ascii.ascii → bool) (s : string) : bool :=
  match s with
  | EmptyString => true
  | String c rest => ok c && all_chars ok rest
  end.

(** Whether [word] occurs somewhere in [text]. *)
Fixpoint occurs_in (word text : string) : bool :=
  String.prefix word text ||
  match text with
  | String _ rest => occurs_in word rest
  | EmptyString => false
  end.

Definition allowed_char (c : Ascii.ascii) : bool :=
  negb (Ascii.eqb c "000"%char).

(** Modelled from the spec: [checkFilename] is imported from
    [src/implementation/fs/filenameUtils], which is not among the sources.
    The FilenameValidator fails on a name that holds a path-traversal
    sequence (the characters [../]), that starts with an absolute-path
    marker (a slash), that holds a disallowed character, or that is
    empty. The spec names no disallowed character; the one taken here is
    NUL, which no path can hold. *)
Definition checkFilename_spec (name : string) : bool :=
  negb (occurs_in "../" name)
  && negb (String.prefix "/" name)
  && all_chars allowed_char name
  && negb (String.eqb name EmptyString).

(** ** A store to run the class on *)

Module Fixture.

Definition contentPath : string := "/srv/h5p/content".
Definition cwd : path := ["home"; "h5p"].

Definition quiz : ILibraryName :=
  {| machineName := "H5P.Quiz"; majorVersion := 1; minorVersion := 2 |}.

Definition dependency (name : string) (major minor : Z) : json :=
  JObject [("machineName", JString name);
           ("majorVersion", JNumber major);
           ("minorVersion", JNumber minor)].

Definition metadata (title mainLibrary : string) (dependencies : list json) : json :=
  JObject [("title", JString title);
           ("mainLibrary", JString mainLibrary);
           ("preloadedDependencies", JArray dependencies)].

(** Three content items: a quiz, a course that embeds a quiz, and a
    text. *)
Definition a_quiz : json :=
  metadata "Capitals" "H5P.Quiz" [dependency "H5P.Quiz" 1 2; dependency "H5P.Image" 1 1].
Definition a_course : json :=
  metadata "Geography" "H5P.Course" [dependency "H5P.Course" 3 0; dependency "H5P.Quiz" 1 2].
Definition a_text : json :=
  metadata "Imprint" "H5P.Text" [dependency "H5P.Text" 1 1].

(** A document that names the quiz library as its main library and
    lists no dependency on it. *)
Definition a_bare_quiz : json :=
  metadata "Draft" "H5P.Quiz" [].

Definition parameters : json :=
  JObject [("questions", JArray [JString "Paris?"; JString "Rome?"]); ("passPercentage", JNumber 50)].

Definition row (metadata : json) : Row :=
  {| row_content := Json.stringify parameters; row_metadata := Json.stringify metadata |}.

Definition three_items : Server :=
  {| rows := list_to_map [(1, row a_quiz); (2, row a_course); (3, row a_text)];
     auto_increment := 4 |}.

Definition one_bare_item : Server :=
  {| rows := list_to_map [(1, row a_bare_quiz)]; auto_increment := 2 |}.

Definition bytes_of (s : string) : list Byte.byte :=
  map Ascii.byte_of_ascii (list_ascii_of_string s).

Definition dir1 : path := ["srv"; "h5p"; "content"; "1"].

(** The directory of content 1 after [a.txt], [sub/b.txt] and [LICENSE]
    were added. *)
Definition files : FS :=
  list_to_map [(["srv"], NDir);
               (["srv"; "h5p"], NDir);
               (["srv"; "h5p"; "content"], NDir);
               (dir1, NDir);
               (dir1 ++ ["a.txt"], NFile (bytes_of "The quick brown fox jumps over the lazy dog"));
               (dir1 ++ ["sub"], NDir);
               (dir1 ++ ["sub"; "b.txt"], NFile (bytes_of "b"));
               (dir1 ++ ["LICENSE"], NFile (bytes_of "MIT"))].

Definition state : State :=
  {| fs := files; server := three_items; pending := []; trace := [] |}.

(** What the file system of the fixture reports as the size of a
    directory. *)
Definition directory_size (p : path) (fs : FS) : N := 4096.



(** A table whose counter has reached the largest value of the column,
    before and after that value was handed out. *)
Definition last_id_free : State :=
  {| fs := ∅;
     server := {| rows := list_to_map [(1, row a_quiz)]; auto_increment := 4294967295 |};
     pending := [];
     trace := [] |}.

Definition exhausted : State :=
  {| fs := ∅;
     server := {| rows := list_to_map [(1, row a_quiz); (4294967295, row a_text)];
                  auto_increment := 4294967295 |};
     pending := [];
     trace := [] |}.

Definition bare_state : State :=
  {| fs := ∅; server := one_bare_item; pending := []; trace := [] |}.

(** A store in which the metadata of the second item is the document
    [null]. *)
Definition null_state : State :=
  {| fs := ∅;
     server := {| rows := list_to_map [(1, row a_quiz); (2, row JNull)];
                  auto_increment := 3 |};
     pending := [];
     trace := [] |}.

End Fixture.

(** ** The class *)

Section ChipfabrikMySqlContentStorage.

(** [IUser] is passed through and never looked at. *)
Context {IUser : Type}.

(** [checkFilename] of [src/implementation/fs/filenameUtils] and
    [hasDependencyOn] of [src/helpers/DependencyChecker] are imported by
    the class; [checkFilename name = false] stands for "throws". *)
Variable checkFilename : string → bool.
Variable hasDependencyOn : json → ILibraryName → bool.

(** [JSON.stringify] and [JSON.parse]; [None] stands for the
    [SyntaxError] of [JSON.parse]. *)
Variable JSON_stringify : json → string.
Variable JSON_parse : string → option json.

(** [_options.contentPath] and the working directory of the process. *)
Variable contentPath : string.
Variable cwd : path.

(** The size [fs.stat] reports for a directory: it is up to the file
    system. *)
Variable directory_size : path → FS → N.

(** *** The server side of the connection *)

(** [JSON_VALID] of the two CHECK constraints, taken to accept the texts
    that [JSON.parse] accepts. *)
Definition JSON_VALID (text : string) : bool :=
  match JSON_parse text with
  | Some _ => true
  | None => false
  end.

Definition set_rows (rows' : gmap N Row) (srv : Server) : Server :=
  {| rows := rows'; auto_increment := auto_increment srv |}.

(** The largest value of the column [id INT UNSIGNED]. *)
Definition UINT_MAX : N := 4294967295.

(** One statement run by the server; the answer is what the callback
    receives, an [error] or the [results]. A JSON column is checked when a
    row is written. A new row gets the value of the AUTO_INCREMENT counter
    as its id; the counter then moves on by one. Neither goes beyond the
    largest value of the column, so that once that value is taken an
    INSERT fails with a duplicate-key error. *)
Definition execute (q : Statement) (srv : Server) : (Error + Results) * Server :=
  match q with
  | UpdateContent metadataJson contentJson id =>
      match rows srv !! id with
      | Some _ =>
          if JSON_VALID metadataJson && JSON_VALID contentJson
          then (inr (OkPacket 0 1),
                set_rows (<[id := {| row_content := contentJson;
                                     row_metadata := metadataJson |}]> (rows srv)) srv)
          else (inl (SqlError "ER_INVALID_JSON_TEXT"), srv)
      | None => (inr (OkPacket 0 0), srv)
      end
  | InsertContent metadataJson contentJson =>
      let id := N.min (auto_increment srv) UINT_MAX in
      if negb (JSON_VALID metadataJson && JSON_VALID contentJson)
      then (inl (SqlError "ER_INVALID_JSON_TEXT"), srv)
      else match rows srv !! id with
           | Some _ => (inl (SqlError "ER_DUP_ENTRY"), srv)
           | None =>
               (inr (OkPacket id 1),
                {| rows := <[id := {| row_content := contentJson;
                                      row_metadata := metadataJson |}]> (rows srv);
                   auto_increment := N.min (id + 1) UINT_MAX |})
           end
  | SelectCount id =>
      (inr (CountRow (if rows srv !! id is Some _ then 1 else 0)), srv)
  | DeleteContent id =>
      (inr (OkPacket 0 (if rows srv !! id is Some _ then 1 else 0)),
       set_rows (delete id (rows srv)) srv)
  | SelectMetadata id =>
      (inr (TextRows (if rows srv !! id is Some r then [row_metadata r] else [])), srv)
  | SelectContent id =>
      (inr (TextRows (if rows srv !! id is Some r then [row_content r] else [])), srv)
  | SelectIds =>
      (inr (IdRows (map_to_list (rows srv)).*1), srv)
  end.

(** The server after the statements of the queue have run, in the order
    in which they were sent. *)
Definition settle (queue : list Statement) (srv : Server) : Server :=
  fold_left (λ s q, (execute q s).2) queue srv.

(** The table as the next awaited statement will find it. *)
Definition committed (st : State) : Server :=
  settle (pending st) (server st).

(** *** The client side *)

(** [connection.query(sql, values, callback)] where nothing waits for the
    callback: the statement is queued behind the earlier ones. *)
Definition connection_send (q : Statement) : M unit := λ st,
  (Resolved (),
   {| fs := fs st; server := server st;
      pending := pending st ++ [q]; trace := trace st ++ [EvQuery q] |}).

(** [connection.query] inside [new Promise], up to the point where the
    callback is entered with the answer: by then every statement sent
    before has run. What the callback does with the answer is the rest of
    the method. *)
Definition connection_query (q : Statement) : M (Error + Results) := λ st,
  let '(answer, srv) := execute q (committed st) in
  (Resolved answer,
   {| fs := fs st; server := srv; pending := []; trace := trace st ++ [EvQuery q] |}).

Definition pathExists (p : path) : M bool := λ st,
  (Resolved (fs_pathExists p (fs st)), log (EvFs PathExists p) st).

Definition remove (p : path) : M unit := λ st,
  (Resolved (), set_fs (fs_remove p (fs st)) (log (EvFs Remove p) st)).

Definition ensureDir (p : path) : M unit := λ st,
  match fs_ensureDir p (fs st) with
  | inr fs' => (Resolved (), set_fs fs' (log (EvFs EnsureDir p) st))
  | inl e => (Rejected e, log (EvFs EnsureDir p) st)
  end.

(** [createWriteStream(p)] and [promisepipe(readStream, writeStream)];
    the source stream is given by the bytes it delivers. *)
Definition pipeToFile (p : path) (readStream : list Byte.byte) : M unit := λ st,
  match fs_write p readStream (fs st) with
  | inr fs' => (Resolved (), set_fs fs' (log (EvFs CreateWriteStream p) st))
  | inl e => (Rejected e, log (EvFs CreateWriteStream p) st)
  end.

Definition stat (p : path) : M Stats := λ st,
  match fs_stat directory_size p (fs st) with
  | Some s => (Resolved s, log (EvFs Stat p) st)
  | None => (Rejected (FsError "ENOENT"), log (EvFs Stat p) st)
  end.

(** [createReadStream] throws at once when [start] is beyond [end]. The
    bounds are taken as safe integers, which the offsets into a file are;
    Node throws the same [RangeError] for a bound beyond
    [Number.MAX_SAFE_INTEGER], which is left out here. *)
Definition createReadStream (p : path) (start end_ : option N) : M ReadStream :=
  match start, end_ with
  | Some s, Some e =>
      if e <? s then throw RangeError
      else λ st, (Resolved {| rs_path := p; rs_start := start; rs_end := end_ |},
                  log (EvFs CreateReadStream p) st)
  | _, _ =>
      λ st, (Resolved {| rs_path := p; rs_start := start; rs_end := end_ |},
             log (EvFs CreateReadStream p) st)
  end.

Definition glob (dir : path) : M (list path) := λ st,
  (Resolved (fs_glob dir (fs st)), log (EvFs Glob dir) st).

(** [checkFilename(filename)] as a statement. *)
Definition check (filename : string) : M unit :=
  if checkFilename filename then mret () else throw (InvalidFilename filename).

(** [path.join(this._options.contentPath, contentId, ...rest)]: a
    [TypeError] unless every argument is a string. *)
Definition join_id (contentId : IdArg) (rest : list string) : M path :=
  match contentId with
  | Id id => mret (path_join cwd (contentPath :: decimal id :: rest))
  | _ => throw TypeError
  end.

(** *** The methods *)

(** In the callbacks [reject(error)] does not end the function. After
    an UPDATE the [resolve] that follows has no effect on the rejected
    promise; in the other callbacks the next statement reads from
    [results], which is [undefined] when there is an error, and throws.
    (No statement gets results of the shape of another statement; those
    cases are there to make the functions total.) *)
Definition addContent (metadata content : json) (user : IUser)
    (contentId : IdArg) : M ContentId :=
  let metadataJson := JSON_stringify metadata in
  let contentJson := JSON_stringify content in
  match contentId with
  | Id id =>
      answer ← connection_query (UpdateContent metadataJson contentJson id);
      match answer with
      | inl error => throw error
      | inr _ => mret id
      end
  | _ =>
      answer ← connection_query (InsertContent metadataJson contentJson);
      match answer with
      | inl error => reject_then_throw error TypeError
      | inr (OkPacket insertId _) => mret insertId
      | inr _ => uncaught TypeError
      end
  end.

Definition addFile (contentId : ContentId) (filename : string)
    (readStream : list Byte.byte) (user : option IUser) : M unit :=
  _ ← check filename;
  fullPath ← join_id (Id contentId) [filename];
  _ ← ensureDir (path_dirname fullPath);
  pipeToFile fullPath readStream.

Definition contentExists (contentId : ContentId) : M bool :=
  answer ← connection_query (SelectCount contentId);
  match answer with
  | inl error => reject_then_throw error TypeError
  | inr (CountRow count) => if count =? 0 then mret false else mret true
  | inr _ => uncaught TypeError
  end.

Definition deleteContent (contentId : ContentId) (user : option IUser) : M unit :=
  contentPath' ← join_id (Id contentId) [];
  found ← pathExists contentPath';
  _ ← (if (found : bool) then remove contentPath' else mret ());
  connection_send (DeleteContent contentId).

Definition deleteFile (contentId : ContentId) (filename : string)
    (user : option IUser) : M unit :=
  _ ← check filename;
  absolutePath ← join_id (Id contentId) [filename];
  found ← pathExists absolutePath;
  if negb (found : bool)
  then throw (H5pError "storage-file-implementations:delete-content-file-not-found" 404)
  else remove absolutePath.

Definition fileExists (contentId : IdArg) (filename : string) : M bool :=
  _ ← check filename;
  match contentId with
  | undefined => mret false
  | _ =>
      p ← join_id contentId [filename];
      pathExists p
  end.

Definition getFileStats (contentId : IdArg) (file : string) (user : IUser) : M Stats :=
  found ← fileExists contentId file;
  if negb (found : bool) then throw (H5pError "content-file-missing" 404)
  else
    p ← join_id contentId [file];
    stat p.

Definition getFileStream (contentId : IdArg) (file : string) (user : IUser)
    (rangeStart rangeEnd : option N) : M ReadStream :=
  found ← fileExists contentId file;
  if negb (found : bool) then throw (H5pError "content-file-missing" 404)
  else
    p ← join_id contentId [file];
    createReadStream p rangeStart rangeEnd.

(** The callback of the two getters: they resolve to [null] when no row
    is found. [JSON.parse] is called inside the callback, so that its
    [SyntaxError] is not turned into a rejection: the promise is never
    settled. *)
Definition parse_first (answer : Error + Results) : M json :=
  match answer with
  | inl error => reject_then_throw error TypeError
  | inr (TextRows []) => mret JNull
  | inr (TextRows (text :: _)) =>
      match JSON_parse text with
      | Some document => mret document
      | None => uncaught SyntaxError
      end
  | inr _ => uncaught TypeError
  end.

Definition getMetadata (contentId : ContentId) (user : option IUser) : M json :=
  answer ← connection_query (SelectMetadata contentId);
  parse_first answer.

Definition getParameters (contentId : ContentId) (user : option IUser) : M json :=
  answer ← connection_query (SelectContent contentId);
  parse_first answer.

Definition listContent (user : option IUser) : M (list ContentId) :=
  answer ← connection_query SelectIds;
  match answer with
  | inl error => reject_then_throw error TypeError
  | inr (IdRows ids) => mret ids
  | inr _ => uncaught TypeError
  end.

Definition listFiles (contentId : ContentId) (user : IUser) : M (list string) :=
  contentDirectoryPath ← join_id (Id contentId) [];
  absolutePaths ← glob contentDirectoryPath;
  mret (map (path_relative contentDirectoryPath) absolutePaths).

(** [o.name]: a [TypeError] on [null], [undefined] where there is no
    such property. *)
Definition property (o : json) (name : string) : M (option json) :=
  match o with
  | JNull => throw TypeError
  | _ => mret (property_of o name)
  end.

(** The loop of [getUsage] over the ids that are left, with the two
    counters. *)
Fixpoint getUsage_loop (library : ILibraryName) (contentIds : list ContentId)
    (asDependency asMainLibrary : N) : M Usage :=
  match contentIds with
  | [] => mret {| asDependency := asDependency; asMainLibrary := asMainLibrary |}
  | contentId :: rest =>
      contentMetadata ← getMetadata contentId None;
      mainLibrary ← property contentMetadata "mainLibrary";
      let isMainLibrary := strict_eq_string mainLibrary (machineName library) in
      if hasDependencyOn contentMetadata library
      then
        if isMainLibrary
        then getUsage_loop library rest asDependency (asMainLibrary + 1)
        else getUsage_loop library rest (asDependency + 1) asMainLibrary
      else getUsage_loop library rest asDependency asMainLibrary
  end.

Definition getUsage (library : ILibraryName) : M Usage :=
  contentIds ← listContent None;
  getUsage_loop library contentIds 0 0.

Definition getUserPermissions (contentId : ContentId) (user : IUser) : M (list Permission.t) :=
  mret [Permission.Delete; Permission.Download; Permission.Edit; Permission.Embed;
        Permission.View].

(** ** What the theorems speak about *)

(** The directory of a content item and the path of one of its files, as
    the methods compute them. *)
Definition content_dir (contentId : ContentId) : path :=
  path_join cwd [contentPath; decimal contentId].

Definition content_file (contentId : ContentId) (filename : string) : path :=
  path_join cwd [contentPath; decimal contentId; filename].

(** The table has room: the counter is a value of the column and every
    row lies below it, so that the next id is free. *)
Definition server_wf (srv : Server) : Prop :=
  auto_increment srv ≤ UINT_MAX ∧
  map_Forall (λ id _, id < auto_increment srv) (rows srv).

#[export] Instance server_wf_dec (srv : Server) : Decision (server_wf srv).
Proof. unfold server_wf. apply _. Defined.

(** What holds of the table at all times: the counter is a value of the
    column, and every row lies below it, except for the row with the
    largest id once the counter has reached that value and handed it
    out. *)
Definition server_inv (srv : Server) : Prop :=
  auto_increment srv ≤ UINT_MAX ∧
  map_Forall (λ id _, id < auto_increment srv ∨ (id = UINT_MAX ∧ auto_increment srv = UINT_MAX))
             (rows srv).

#[export] Instance server_inv_dec (srv : Server) : Decision (server_inv srv).
Proof. unfold server_inv. apply _. Defined.

(** The largest offset into a file that a JavaScript number holds
    exactly, [Number.MAX_SAFE_INTEGER]. *)
Definition MAX_SAFE_INTEGER : N := 9007199254740991.

Definition safe_integer (offset : option N) : bool :=
  match offset with
  | Some n => n <=? MAX_SAFE_INTEGER
  | None => true
  end.

(** A document is JSON-serializable when it survives [JSON.stringify]
    followed by [JSON.parse]. *)
Definition serializable (document : json) : Prop :=
  JSON_parse (JSON_stringify document) = Some document.

(** The characters of a decimal rendering. *)
Definition is_digit (c : Ascii.ascii) : bool :=
  bool_decide (c ∈ ["0"; "1"; "2"; "3"; "4"; "5"; "6"; "7"; "8"; "9"]%char).

(** The part of [deleteContent] before the statement is sent. *)
Definition removal (contentId : ContentId) (st : State) : State :=
  let dir := content_dir contentId in
  if fs_pathExists dir (fs st)
  then set_fs (fs_remove dir (fs st)) (log (EvFs Remove dir) (log (EvFs PathExists dir) st))
  else log (EvFs PathExists dir) st.



(** The metadata documents of the rows, in the order of [listContent];
    [None] when a column does not parse. *)
Definition stored_metadata (srv : Server) : option (list json) :=
  mapM (λ kv : ContentId * Row, JSON_parse (row_metadata kv.2)) (map_to_list (rows srv)).

(** [contentMetadata.mainLibrary === library.machineName] *)
Definition isMainLibrary (library : ILibraryName) (contentMetadata : json) : bool :=
  strict_eq_string (property_of contentMetadata "mainLibrary") (machineName library).

(** The two ways in which [getUsage] counts a content item. *)
Definition counts_as_main (library : ILibraryName) (contentMetadata : json) : bool :=
  hasDependencyOn contentMetadata library && isMainLibrary library contentMetadata.

Definition counts_as_dependency (library : ILibraryName) (contentMetadata : json) : bool :=
  hasDependencyOn contentMetadata library && negb (isMainLibrary library contentMetadata).

(** How many of the documents satisfy [f]. *)
Definition count (f : json → bool) (documents : list json) : N :=
  N.of_nat (length (filter (λ d, f d = true) documents)).

(** The invariant of the store, and what it means for a method to keep
    it, however the method ends. *)
Definition state_wf (st : State) : Prop :=
  fs_wf (fs st) ∧ server_inv (committed st).

Definition preserves {A : Type} (method : M A) : Prop :=
  ∀ st, state_wf st → state_wf (method st).2.

(** What a method leaves alone: the files, the table as the next awaited
    statement finds it, the connection with its queue. *)
Definition same_files (st st' : State) : Prop :=
  fs st' = fs st.

Definition same_table (st st' : State) : Prop :=
  committed st' = committed st.

Definition same_connection (st st' : State) : Prop :=
  server st' = server st ∧ pending st' = pending st.

Definition unchanged (st st' : State) : Prop :=
  same_files st st' ∧ same_table st st'.

(** A method keeps a relation when the state it ends in is related to the
    state it started from, however the method ends. *)
Definition keeps {A : Type} (R : State → State → Prop) (method : M A) : Prop :=
  ∀ st, R st (method st).2.

(** Whether an offset lies within a range that ends at [rangeEnd], or
    nowhere when [rangeEnd] is left out. *)
Definition within_end (rangeEnd : option N) (offset : N) : bool :=
  match rangeEnd with
  | Some e => offset <=? e
  | None => true
  end.

(** The statements that only read the table. *)
Definition reads_only (q : Statement) : bool :=
  match q with
  | SelectCount _ | SelectMetadata _ | SelectContent _ | SelectIds => true
  | _ => false
  end.

(** ** Paths of content items *)

Lemma norm_step_name (acc : path) (seg : string) :
  seg ≠ ".." →
  norm_step acc seg = if is_name seg then acc ++ [seg] else acc.
Proof.
  intros Hup. unfold norm_step, is_name.
  destruct (bool_decide (seg = EmptyString ∨ seg = ".")); cbn; [done|].
  by rewrite bool_decide_eq_false_2.
Qed.

Lemma normalize_from_confined (segs : list string) (base : path) :
  ".." ∉ segs →
  normalize_from base segs = base ++ filter (λ seg, is_name seg = true) segs.
Proof.
  revert base. induction segs as [|seg segs IH]; intros base Hup.
  - by rewrite app_nil_r.
  - apply not_elem_of_cons in Hup as [Hne Hup].
    unfold normalize_from in *. cbn [fold_left].
    rewrite IH, norm_step_name by done.
    destruct (is_name seg) eqn:E.
    + rewrite filter_cons_True by done. by rewrite <- app_assoc.
    + rewrite filter_cons_False; [done|]. by rewrite E.
Qed.

Lemma pretty_N_go_nonempty (x : N) (s : string) :
  s ≠ EmptyString ∨ 0 < x → pretty_N_go x s ≠ EmptyString.
Proof.
  revert s. induction (N.lt_wf_0 x) as [x _ IH]; intros s Hs.
  destruct (decide (0 < x)) as [Hx|Hx].
  - rewrite pretty_N_go_step by done.
    apply IH; [by apply N.div_lt | by left].
  - assert (x = 0) as -> by lia. rewrite pretty_N_go_0.
    destruct Hs; [done | lia].
Qed.

Lemma decimal_nonempty (n : N) : decimal n ≠ EmptyString.
Proof.
  unfold decimal, pretty, pretty_N. case_decide; [done|].
  apply pretty_N_go_nonempty. right. lia.
Qed.

Lemma pretty_N_char_digit (x : N) : is_digit (pretty_N_char x) = true.
Proof. unfold pretty_N_char. by repeat case_match. Qed.

Lemma pretty_N_go_digits (x : N) (s : string) :
  all_chars is_digit s = true → all_chars is_digit (pretty_N_go x s) = true.
Proof.
  revert s. induction (N.lt_wf_0 x) as [x _ IH]; intros s Hs.
  destruct (decide (0 < x)) as [Hx|Hx].
  - rewrite pretty_N_go_step by done.
    apply IH; [by apply N.div_lt|]. cbn. by rewrite pretty_N_char_digit.
  - assert (x = 0) as -> by lia. by rewrite pretty_N_go_0.
Qed.

Lemma decimal_digits (n : N) : all_chars is_digit (decimal n) = true.
Proof.
  unfold decimal, pretty, pretty_N. case_decide; [done|].
  by apply pretty_N_go_digits.
Qed.

Lemma segments_digits (s : string) :
  all_chars is_digit s = true → segments s = [s].
Proof.
  induction s as [|c s IH]; [done|]. cbn. intros [Hc Hs]%andb_true_iff.
  rewrite IH by done. destruct (Ascii.eqb_spec c "/"); [by subst|done].
Qed.

Lemma digits_name (s : string) :
  all_chars is_digit s = true → s ≠ EmptyString → is_name s = true ∧ s ≠ "..".
Proof.
  destruct s as [|c s]; [done|]. cbn. intros [Hc _]%andb_true_iff _.
  unfold is_name. split.
  - rewrite bool_decide_eq_false_2; [done|]. intros [?|?]; [done|].
    by simplify_eq.
  - intros ?. by simplify_eq.
Qed.

(** The directory of a content item is the entry of the content path
    that is named by the decimal id. *)
Lemma content_dir_eq (contentId : ContentId) :
  content_dir contentId
  = normalize_from (if is_absolute [contentPath; decimal contentId] then [] else cwd)
                   (segments contentPath)
    ++ [decimal contentId].
Proof.
  unfold content_dir, path_join, normalize_from. cbn [flat_map].
  rewrite app_nil_r, fold_left_app, segments_digits by apply decimal_digits.
  cbn [fold_left].
  destruct (digits_name (decimal contentId)) as [Hn Hup];
    [apply decimal_digits | apply decimal_nonempty |].
  rewrite norm_step_name by done. by rewrite Hn.
Qed.

Lemma content_dir_not_root (contentId : ContentId) : content_dir contentId ≠ [].
Proof. rewrite content_dir_eq. by intros [? ?]%app_eq_nil. Qed.

(** Two content items have directories of which neither lies in the
    other. *)
Lemma content_dirs_apart (c c' : ContentId) :
  content_dir c `prefix_of` content_dir c' → c = c'.
Proof.
  rewrite !content_dir_eq.
  assert (∀ n, is_absolute [contentPath; decimal n] = is_absolute [contentPath]) as Habs.
  { intros n. unfold is_absolute. rewrite !filter_cons, filter_nil.
    destruct (decide (contentPath ≠ EmptyString)); [done|].
    rewrite decide_True by apply decimal_nonempty.
    pose proof (decimal_digits n) as Hd. pose proof (decimal_nonempty n) as Hn.
    destruct (decimal n) as [|ch rest]; [done|]. cbn in Hd.
    apply andb_true_iff in Hd as [Hch _].
    destruct (Ascii.eqb_spec ch "/"); [by subst|done]. }
  rewrite !Habs. intros [rest Hrest].
  rewrite <- app_assoc in Hrest. apply (inj (app _)) in Hrest.
  cbn in Hrest. injection Hrest as Heq _. by apply (inj pretty) in Heq.
Qed.

Lemma is_absolute_content (contentId : ContentId) (rest : list string) :
  is_absolute (contentPath :: decimal contentId :: rest)
  = is_absolute [contentPath; decimal contentId].
Proof.
  unfold is_absolute. pose proof (decimal_nonempty contentId) as Hd.
  rewrite !filter_cons. destruct (decide (contentPath ≠ EmptyString)); [done|].
  destruct (decide (decimal contentId ≠ EmptyString)); [done|done].
Qed.

(** A path built from the directory of a content item and more
    arguments continues the normalisation from that directory. *)
Lemma path_join_content (contentId : ContentId) (rest : list string) :
  path_join cwd (contentPath :: decimal contentId :: rest)
  = normalize_from (content_dir contentId) (flat_map segments rest).
Proof.
  unfold content_dir, path_join. rewrite is_absolute_content.
  unfold normalize_from.
  change (contentPath :: decimal contentId :: rest)
    with ([contentPath; decimal contentId] ++ rest).
  by rewrite flat_map_app, fold_left_app.
Qed.

Lemma content_file_confined (contentId : ContentId) (filename : string) :
  confined filename →
  content_file contentId filename
  = content_dir contentId ++ filter (λ seg, is_name seg = true) (segments filename).
Proof.
  intros [Hup _]. unfold content_file. rewrite path_join_content.
  cbn [flat_map]. rewrite app_nil_r. by apply normalize_from_confined.
Qed.

(** ** The table *)

Lemma serializable_valid (document : json) :
  serializable document → JSON_VALID (JSON_stringify document) = true.
Proof. unfold serializable, JSON_VALID. by intros ->. Qed.

(** On a table with room the value of the counter is free. *)
Lemma server_wf_free (srv : Server) :
  server_wf srv → rows srv !! auto_increment srv = None.
Proof.
  intros [_ Hrows]. destruct (rows srv !! auto_increment srv) eqn:E; [|done].
  apply Hrows in E. lia.
Qed.

(** The value of the counter is taken only when the counter has reached
    the largest value of the column. *)
Lemma server_inv_taken (srv : Server) (row : Row) :
  server_inv srv → rows srv !! auto_increment srv = Some row →
  auto_increment srv = UINT_MAX.
Proof.
  intros [_ Hrows] Hrow. destruct (Hrows _ _ Hrow) as [Hlt|[_ Hmax]]; [lia | done].
Qed.

Lemma execute_inv (q : Statement) (srv : Server) :
  server_inv srv → server_inv (execute q srv).2.
Proof.
  intros [Hmax Hrows]. destruct q; cbn; try done.
  - destruct (rows srv !! id) eqn:E; [|done].
    destruct (JSON_VALID metadataJson && JSON_VALID contentJson); [|done].
    split; [done|]. cbn. apply map_Forall_insert_2; [by eapply Hrows | done].
  - rewrite N.min_l by done.
    destruct (JSON_VALID metadataJson && JSON_VALID contentJson); [|done].
    destruct (rows srv !! auto_increment srv) eqn:E; [done|].
    split; cbn; [lia|]. apply map_Forall_insert_2; [lia|].
    intros id' row Hr. specialize (Hrows id' row Hr). cbn in Hrows. lia.
  - split; [done|]. by apply map_Forall_delete.
Qed.

Lemma settle_inv (queue : list Statement) (srv : Server) :
  server_inv srv → server_inv (settle queue srv).
Proof.
  revert srv. induction queue as [|q queue IH]; intros srv Hwf; [done|].
  cbn. apply IH. by apply execute_inv.
Qed.

Lemma settle_snoc (queue : list Statement) (q : Statement) (srv : Server) :
  settle (queue ++ [q]) srv = (execute q (settle queue srv)).2.
Proof. unfold settle. by rewrite fold_left_app. Qed.

(** After an awaited statement nothing is left in the queue. *)
Lemma connection_query_run (q : Statement) (st : State) :
  connection_query q st
  = (Resolved (execute q (committed st)).1,
     {| fs := fs st; server := (execute q (committed st)).2;
        pending := []; trace := trace st ++ [EvQuery q] |}).
Proof. unfold connection_query. by destruct (execute q (committed st)). Qed.

Lemma committed_idle (fs' : FS) (srv : Server) (tr : list Event) :
  committed {| fs := fs'; server := srv; pending := []; trace := tr |} = srv.
Proof. done. Qed.

Lemma bind_run {A B : Type} (c : M A) (f : A → M B) (st : State) :
  (c ≫= f) st
  = match c st with
    | (Resolved a, st') => f a st'
    | (Rejected e, st') => (Rejected e, st')
    | (Unsettled, st') => (Unsettled, st')
    end.
Proof. done. Qed.

(** The getters read the committed table and leave it as it is. *)
Lemma getMetadata_run (contentId : ContentId) (user : option IUser) (st : State) :
  getMetadata contentId user st
  = parse_first
      (inr (TextRows (if rows (committed st) !! contentId is Some r then [row_metadata r] else [])))
      {| fs := fs st; server := committed st; pending := [];
         trace := trace st ++ [EvQuery (SelectMetadata contentId)] |}.
Proof. unfold getMetadata. by rewrite bind_run, connection_query_run. Qed.

Lemma getParameters_run (contentId : ContentId) (user : option IUser) (st : State) :
  getParameters contentId user st
  = parse_first
      (inr (TextRows (if rows (committed st) !! contentId is Some r then [row_content r] else [])))
      {| fs := fs st; server := committed st; pending := [];
         trace := trace st ++ [EvQuery (SelectContent contentId)] |}.
Proof. unfold getParameters. by rewrite bind_run, connection_query_run. Qed.

Lemma contentExists_run (contentId : ContentId) (st : State) :
  contentExists contentId st
  = (Resolved (bool_decide (is_Some (rows (committed st) !! contentId))),
     {| fs := fs st; server := committed st; pending := [];
        trace := trace st ++ [EvQuery (SelectCount contentId)] |}).
Proof.
  unfold contentExists. rewrite bind_run, connection_query_run. cbn.
  by destruct (rows (committed st) !! contentId).
Qed.

Lemma listContent_run (user : option IUser) (st : State) :
  listContent user st
  = (Resolved (map_to_list (rows (committed st))).*1,
     {| fs := fs st; server := committed st; pending := [];
        trace := trace st ++ [EvQuery SelectIds] |}).
Proof. unfold listContent. by rewrite bind_run, connection_query_run. Qed.

(** ** Adding content *)

(** C5. When [addContent] is called without a content id, with metadata
    and parameters that are JSON-serializable, it resolves to an id under
    which [getMetadata] resolves to the metadata and [getParameters] to
    the parameters. *)
Theorem addContent_round_trip (metadata parameters : json) (user : IUser)
    (reader : option IUser) (st : State) :
  serializable metadata →
  serializable parameters →
  server_wf (committed st) →
  ∃ id st',
    addContent metadata parameters user undefined st = (Resolved id, st') ∧
    (getMetadata id reader st').1 = Resolved metadata ∧
    (getParameters id reader st').1 = Resolved parameters.
Proof.
  intros Hm Hp Hwf'.
  pose proof (server_wf_free _ Hwf') as Hfree.
  eexists (auto_increment (committed st)), _. split.
  - unfold addContent. rewrite bind_run, connection_query_run. cbn.
    rewrite !serializable_valid by done. cbn.
    rewrite N.min_l by apply Hwf'. rewrite Hfree. cbn. reflexivity.
  - rewrite getMetadata_run, getParameters_run. unfold committed. cbn.
    rewrite lookup_insert_eq. cbn. unfold serializable in *.
    by rewrite Hm, Hp.
Qed.

(** C10. When [addContent] is given a content id for which the table has
    no row, it resolves to that id and the table is as before: the id
    still does not exist, and [listContent] does not list it. *)
Theorem addContent_unknown_id (metadata parameters : json) (user : IUser)
    (reader : option IUser) (contentId : ContentId) (st : State) :
  rows (committed st) !! contentId = None →
  ∃ st',
    addContent metadata parameters user (Id contentId) st = (Resolved contentId, st') ∧
    committed st' = committed st ∧
    (contentExists contentId st').1 = Resolved false ∧
    ∃ ids, (listContent reader st').1 = Resolved ids ∧ contentId ∉ ids.
Proof.
  intros Hnone. eexists. split; [|split; [|split]].
  - unfold addContent. rewrite bind_run, connection_query_run. cbn.
    rewrite Hnone. cbn. reflexivity.
  - done.
  - rewrite contentExists_run. cbn [fst]. f_equal.
    apply bool_decide_eq_false_2. intros [row Hrow].
    rewrite committed_idle in Hrow. congruence.
  - rewrite listContent_run. eexists. split; [done|].
    intros ([id row] & Hid & Hin)%list_elem_of_fmap.
    apply elem_of_map_to_list in Hin. cbn in Hid. subst id.
    rewrite committed_idle in Hin. congruence.
Qed.

(** ** The file system *)

(** Below a path that does not exist there is nothing. *)
Lemma fs_wf_below_missing (fs0 : FS) (dir rel : path) :
  fs_wf fs0 → dir ≠ [] → fs0 !! dir = None → fs0 !! (dir ++ rel) = None.
Proof.
  intros Hwf Hdir Hnone. induction rel as [|name rel IH] using rev_ind.
  - by rewrite app_nil_r.
  - destruct (fs0 !! (dir ++ rel ++ [name])) as [n|] eqn:E; [|done].
    apply Hwf in E. unfold in_directory in E.
    rewrite app_assoc in E. rewrite removelast_last in E.
    destruct ((dir ++ rel) ++ [name]) eqn:E'; [by destruct (dir ++ rel)|].
    unfold fs_isDir in E. rewrite IH in E.
    apply bool_decide_eq_true_1 in E. by destruct dir.
Qed.

Lemma fs_remove_lookup (fs0 : FS) (p q : path) :
  fs_remove p fs0 !! q = if decide (p `prefix_of` q) then None else fs0 !! q.
Proof.
  unfold fs_remove. case_decide as Hpre.
  - apply map_lookup_filter_None. right. intros n _ Hn. by apply Hn.
  - destruct (fs0 !! q) as [n|] eqn:E.
    + by apply map_lookup_filter_Some.
    + apply map_lookup_filter_None. by left.
Qed.

Lemma fs_glob_spec (fs0 : FS) (dir p : path) :
  p ∈ fs_glob dir fs0 ↔ ∃ n, fs0 !! p = Some n ∧ glob_matches dir p n = true.
Proof.
  unfold fs_glob. rewrite list_elem_of_fmap. split.
  - intros ([q n] & -> & [Hm Hin]%list_elem_of_filter).
    apply elem_of_map_to_list in Hin. by exists n.
  - intros (n & Hp & Hm). exists (p, n). split; [done|].
    apply list_elem_of_filter. split; [done|]. by apply elem_of_map_to_list.
Qed.

Lemma glob_matches_prefix (dir p : path) (n : Node) :
  glob_matches dir p n = true → dir `prefix_of` p.
Proof.
  unfold glob_matches. destruct n; [|done].
  intros [H _]%andb_true_iff. by apply bool_decide_eq_true_1 in H.
Qed.

(** Nothing is found below a directory that holds nothing. *)
Lemma fs_glob_empty (fs0 : FS) (dir : path) :
  (∀ p, dir `prefix_of` p → fs0 !! p = None) → fs_glob dir fs0 = [].
Proof.
  intros Hnone. apply elem_of_nil_inv. intros p (n & Hp & Hm)%fs_glob_spec.
  apply glob_matches_prefix in Hm. rewrite Hnone in Hp; done.
Qed.

(** ** Deleting content *)

Lemma join_id_run (contentId : ContentId) (rest : list string) (st : State) :
  join_id (Id contentId) rest st
  = (Resolved (path_join cwd (contentPath :: decimal contentId :: rest)), st).
Proof. done. Qed.

Lemma deleteContent_run (contentId : ContentId) (user : option IUser) (st : State) :
  deleteContent contentId user st
  = connection_send (DeleteContent contentId) (removal contentId st).
Proof.
  unfold deleteContent, removal. rewrite bind_run, join_id_run.
  fold (content_dir contentId). rewrite bind_run. unfold pathExists at 1.
  destruct (fs_pathExists (content_dir contentId) (fs st)); by cbn.
Qed.

Lemma removal_clears (contentId : ContentId) (st : State) (p : path) :
  fs_wf (fs st) → content_dir contentId `prefix_of` p →
  fs (removal contentId st) !! p = None.
Proof.
  intros Hwf Hpre. unfold removal.
  destruct (fs_pathExists (content_dir contentId) (fs st)) eqn:E; cbn.
  - rewrite fs_remove_lookup. by rewrite decide_True.
  - unfold fs_pathExists in E. destruct (fs st !! content_dir contentId) eqn:E'; [done|].
    apply bool_decide_eq_false_1 in E. destruct Hpre as [rel ->].
    by apply fs_wf_below_missing.
Qed.

(** The removal leaves the connection alone. *)
Lemma removal_pending (contentId : ContentId) (st : State) :
  pending (removal contentId st) = pending st.
Proof. unfold removal. by destruct (fs_pathExists _ (fs st)). Qed.

Lemma removal_server (contentId : ContentId) (st : State) :
  server (removal contentId st) = server st.
Proof. unfold removal. by destruct (fs_pathExists _ (fs st)). Qed.

Lemma removal_nothing (contentId : ContentId) (st : State) :
  fs_pathExists (content_dir contentId) (fs st) = false →
  fs (removal contentId st) = fs st.
Proof. unfold removal. by intros ->. Qed.

Lemma removal_gone (contentId : ContentId) (st : State) :
  fs_pathExists (content_dir contentId) (fs (removal contentId st)) = false.
Proof.
  unfold removal.
  destruct (fs_pathExists (content_dir contentId) (fs st)) eqn:E; cbn; [|done].
  unfold fs_pathExists. rewrite fs_remove_lookup, decide_True by done.
  apply bool_decide_eq_false_2, content_dir_not_root.
Qed.

(** C3. [deleteContent] sends the DELETE statement from a state in which
    the directory of the content item is already gone: what it does
    before consists of file-system calls only, none of them touches the
    table or the queue of the connection, and the statement is the last
    effect. *)
Theorem deleteContent_files_first (contentId : ContentId) (user : option IUser)
    (st : State) :
  ∃ mid before st',
    deleteContent contentId user st = (Resolved (), st') ∧
    trace mid = trace st ++ before ∧
    (∀ q, EvQuery q ∉ before) ∧
    server mid = server st ∧ pending mid = pending st ∧
    fs_pathExists (content_dir contentId) (fs mid) = false ∧
    connection_send (DeleteContent contentId) mid = (Resolved (), st') ∧
    fs st' = fs mid ∧
    pending st' = pending mid ++ [DeleteContent contentId] ∧
    trace st' = trace st ++ before ++ [EvQuery (DeleteContent contentId)].
Proof.
  exists (removal contentId st).
  exists (if fs_pathExists (content_dir contentId) (fs st)
          then [EvFs PathExists (content_dir contentId); EvFs Remove (content_dir contentId)]
          else [EvFs PathExists (content_dir contentId)]).
  eexists. split; [by rewrite deleteContent_run|].
  pose proof (removal_gone contentId st) as Hgone.
  unfold removal in *.
  destruct (fs_pathExists (content_dir contentId) (fs st)); cbn in *.
  - repeat split; try done.
    + by rewrite <- app_assoc.
    + by intros q [?|[?|?%elem_of_nil]%elem_of_cons]%elem_of_cons.
    + by rewrite <- !app_assoc.
  - repeat split; try done.
    + by intros q [?|?%elem_of_nil]%elem_of_cons.
    + by rewrite <- !app_assoc.
Qed.

(** C4. On a well-formed file system, [deleteContent] twice in a row
    resolves both times, and the second call changes neither the files
    nor the table; afterwards [contentExists] resolves to false and
    [listFiles] to the empty list. *)
Theorem deleteContent_twice (contentId : ContentId) (user : option IUser)
    (reader : IUser) (st : State) :
  fs_wf (fs st) →
  ∃ st1 st2,
    deleteContent contentId user st = (Resolved (), st1) ∧
    deleteContent contentId user st1 = (Resolved (), st2) ∧
    fs st2 = fs st1 ∧
    committed st2 = committed st1 ∧
    (contentExists contentId st2).1 = Resolved false ∧
    (listFiles contentId reader st2).1 = Resolved [].
Proof.
  intros Hwf. eexists _, _. split; [by rewrite deleteContent_run|].
  split; [by rewrite deleteContent_run|].
  pose proof (removal_gone contentId st) as Hgone.
  cbn [connection_send snd fst fs pending server].
  split; [|split; [|split]].
  - by rewrite removal_nothing.
  - unfold committed. cbn [pending server].
    rewrite !removal_pending, !removal_server. cbn [pending server].
    rewrite !settle_snoc. cbn. unfold set_rows. cbn. by rewrite delete_delete_eq.
  - rewrite contentExists_run. cbn [fst]. f_equal.
    apply bool_decide_eq_false_2. intros [row Hrow].
    unfold committed in Hrow. cbn [pending server] in Hrow.
    rewrite settle_snoc in Hrow. cbn in Hrow.
    by rewrite lookup_delete_eq in Hrow.
  - unfold listFiles. rewrite bind_run, join_id_run.
    fold (content_dir contentId). rewrite bind_run. unfold glob.
    cbn [fst fs log set_fs]. rewrite removal_nothing by done.
    rewrite fs_glob_empty; [done|]. intros p Hpre. by apply removal_clears.
Qed.

(** ** Files *)

Lemma check_run (filename : string) (st : State) :
  check filename st
  = if checkFilename filename then (Resolved (), st)
    else (Rejected (InvalidFilename filename), st).
Proof. unfold check. by destruct (checkFilename filename). Qed.

Lemma fileExists_run (contentId : ContentId) (filename : string) (st : State) :
  checkFilename filename = true →
  fileExists (Id contentId) filename st
  = (Resolved (fs_pathExists (content_file contentId filename) (fs st)),
     log (EvFs PathExists (content_file contentId filename)) st).
Proof.
  intros Hok. unfold fileExists. rewrite bind_run, check_run, Hok.
  by rewrite bind_run, join_id_run.
Qed.

Lemma fileExists_undefined_run (filename : string) (st : State) :
  checkFilename filename = true →
  fileExists undefined filename st = (Resolved false, st).
Proof.
  intros Hok. unfold fileExists. by rewrite bind_run, check_run, Hok.
Qed.

(** C7. For a filename that passes [checkFilename], [fileExists] without
    a content id resolves to false; it is not rejected, and it makes no
    file-system call. *)
Theorem fileExists_without_id (filename : string) (st : State) :
  checkFilename filename = true →
  fileExists undefined filename st = (Resolved false, st).
Proof.
  intros Hok. unfold fileExists. rewrite bind_run. unfold check.
  rewrite Hok. reflexivity.
Qed.

(** C8. For a filename that passes [checkFilename], [deleteFile] is
    rejected with the 404 error exactly when nothing exists at the path
    of the file; when something exists there, [deleteFile] resolves, the
    path is gone afterwards, and every path that does not lie below it
    is as before. *)
Theorem deleteFile_not_found_iff (contentId : ContentId) (filename : string)
    (user : option IUser) (st : State) :
  checkFilename filename = true →
  ((deleteFile contentId filename user st).1
     = Rejected (H5pError "storage-file-implementations:delete-content-file-not-found" 404)
   ↔ fs_pathExists (content_file contentId filename) (fs st) = false) ∧
  (fs_pathExists (content_file contentId filename) (fs st) = true →
   ∃ st',
     deleteFile contentId filename user st = (Resolved (), st') ∧
     fs st' !! content_file contentId filename = None ∧
     ∀ q, ¬ content_file contentId filename `prefix_of` q → fs st' !! q = fs st !! q).
Proof.
  intros Hok.
  assert (deleteFile contentId filename user st
          = if fs_pathExists (content_file contentId filename) (fs st)
            then remove (content_file contentId filename)
                   (log (EvFs PathExists (content_file contentId filename)) st)
            else (Rejected (H5pError "storage-file-implementations:delete-content-file-not-found" 404),
                  log (EvFs PathExists (content_file contentId filename)) st)) as ->.
  { unfold deleteFile. rewrite bind_run, check_run, Hok.
    rewrite bind_run, join_id_run. fold (content_file contentId filename).
    rewrite bind_run. unfold pathExists at 1.
    by destruct (fs_pathExists (content_file contentId filename) (fs st)). }
  destruct (fs_pathExists (content_file contentId filename) (fs st)); split.
  - by split.
  - intros _. eexists. split; [done|]. cbn. split.
    + rewrite fs_remove_lookup. by rewrite decide_True.
    + intros q Hq. rewrite fs_remove_lookup. by rewrite decide_False.
  - by split.
  - done.
Qed.

(** C9. For an existing file and a range [rangeStart ≤ rangeEnd] within
    its length, [getFileStream] resolves to a stream that delivers
    [rangeEnd - rangeStart + 1] bytes, the bytes of the file at the
    offsets [rangeStart] to [rangeEnd]. *)
Theorem getFileStream_range (contentId : ContentId) (file : string) (user : IUser)
    (rangeStart rangeEnd : N) (data : list Byte.byte) (st : State) :
  checkFilename file = true →
  fs st !! content_file contentId file = Some (NFile data) →
  rangeStart ≤ rangeEnd →
  rangeEnd < N.of_nat (length data) →
  ∃ stream st' bytes,
    getFileStream (Id contentId) file user (Some rangeStart) (Some rangeEnd) st
      = (Resolved stream, st') ∧
    fs st' = fs st ∧
    stream_bytes (fs st') stream = inr bytes ∧
    N.of_nat (length bytes) = rangeEnd - rangeStart + 1 ∧
    ∀ i : nat, (i < length bytes)%nat →
      bytes !! i = data !! (N.to_nat rangeStart + i)%nat.
Proof.
  intros Hok Hfile Hle Hlt. eexists _, _, _. split; [|split; [|split]].
  - unfold getFileStream. rewrite bind_run, fileExists_run by done.
    unfold fs_pathExists. rewrite Hfile. cbn [negb].
    rewrite bind_run, join_id_run. fold (content_file contentId file).
    unfold createReadStream.
    destruct (rangeEnd <? rangeStart) eqn:E; [apply N.ltb_lt in E; lia|].
    reflexivity.
  - done.
  - unfold stream_bytes. cbn [rs_path rs_start rs_end fs log]. rewrite Hfile. reflexivity.
  - cbn. split.
    + rewrite length_take, length_drop. lia.
    + intros i Hi. rewrite length_take in Hi.
      rewrite lookup_take_lt by lia. by rewrite lookup_drop.
Qed.

(** ** Filename validation comes first *)




Lemma content_file_below (contentId : ContentId) (filename : string) :
  confined filename →
  content_dir contentId `prefix_of` content_file contentId filename ∧
  content_dir contentId `prefix_of` path_dirname (content_file contentId filename).
Proof.
  intros Hc. rewrite content_file_confined by done. destruct Hc as [_ Hnames].
  split; [by apply prefix_app_r|].
  unfold path_dirname. rewrite removelast_app by done. by apply prefix_app_r.
Qed.











(** ** Listing files *)

(** C2, as the class has it. [listFiles] resolves to the relative paths
    of the regular files below the directory of the content item that
    the pattern [**/*.*] selects: the name of the file holds a dot and
    does not start with one, and no directory on the way down starts
    with a dot. Directories are not listed. *)
Theorem listFiles_selected (contentId : ContentId) (user : IUser) (st : State) :
  ∃ names,
    listFiles contentId user st
      = (Resolved names, log (EvFs Glob (content_dir contentId)) st) ∧
    ∀ name, name ∈ names ↔
      ∃ rel data,
        name = String.concat "/" rel ∧
        fs st !! (content_dir contentId ++ rel) = Some (NFile data) ∧
        glob_selects rel = true.
Proof.
  eexists. split.
  - unfold listFiles. rewrite bind_run, join_id_run.
    fold (content_dir contentId). rewrite bind_run. unfold glob. reflexivity.
  - intros name. change (map ?f ?l) with (f <$> l). rewrite list_elem_of_fmap. split.
    + intros (p & -> & (n & Hp & Hm)%fs_glob_spec).
      unfold glob_matches in Hm. destruct n as [data|]; [|done].
      apply andb_true_iff in Hm as [[rel ->]%bool_decide_eq_true_1 Hsel].
      rewrite drop_app_length in Hsel.
      exists rel, data. unfold path_relative. by rewrite drop_app_length.
    + intros (rel & data & -> & Hp & Hsel).
      exists (content_dir contentId ++ rel). split.
      * unfold path_relative. by rewrite drop_app_length.
      * apply fs_glob_spec. exists (NFile data). split; [done|].
        unfold glob_matches. rewrite drop_app_length, Hsel.
        rewrite bool_decide_eq_true_2; [done|]. by apply prefix_app_r.
Qed.

(** ** Usage *)

Lemma count_cons (f : json → bool) (d : json) (documents : list json) :
  count f (d :: documents) = (if f d then 1 else 0) + count f documents.
Proof.
  unfold count. rewrite filter_cons. destruct (f d); cbn [length].
  - rewrite decide_True by done. cbn [length]. lia.
  - rewrite decide_False by done. lia.
Qed.

Lemma getMetadata_stored (contentId : ContentId) (row : Row) (document : json)
    (user : option IUser) (st : State) :
  rows (committed st) !! contentId = Some row →
  JSON_parse (row_metadata row) = Some document →
  ∃ st', getMetadata contentId user st = (Resolved document, st') ∧
         committed st' = committed st.
Proof.
  intros Hrow Hparse. eexists. rewrite getMetadata_run, Hrow. cbn.
  rewrite Hparse. split; [reflexivity|]. apply committed_idle.
Qed.

Lemma getUsage_loop_counts (library : ILibraryName)
    (entries : list (ContentId * Row)) (documents : list json) :
  Forall2 (λ kv d, JSON_parse (row_metadata kv.2) = Some d ∧ d ≠ JNull) entries documents →
  ∀ (st : State) (asDep asMain : N),
    (∀ kv, kv ∈ entries → rows (committed st) !! kv.1 = Some kv.2) →
    (getUsage_loop library entries.*1 asDep asMain st).1
    = Resolved {| asDependency := asDep + count (counts_as_dependency library) documents;
                  asMainLibrary := asMain + count (counts_as_main library) documents |}.
Proof.
  induction 1 as [|[id row] d entries documents [Hparse Hnull] _ IH];
    intros st asDep asMain Hrows.
  - cbn. unfold count. cbn. by rewrite !N.add_0_r.
  - cbn [fmap list_fmap fst getUsage_loop]. rewrite bind_run.
    destruct (getMetadata_stored id row d None st) as (st' & -> & Hst');
      [by apply (Hrows (id, row)), list_elem_of_here | done |].
    rewrite bind_run.
    assert (property d "mainLibrary" st' = (Resolved (property_of d "mainLibrary"), st')) as ->
      by by destruct d.
    assert (∀ kv, kv ∈ entries → rows (committed st') !! kv.1 = Some kv.2) as Hrows'.
    { intros kv Hkv. rewrite Hst'. by apply Hrows, list_elem_of_further. }
    rewrite !count_cons.
    unfold counts_as_main at 1, counts_as_dependency at 1, isMainLibrary at 1 2.
    destruct (hasDependencyOn d library),
      (strict_eq_string (property_of d "mainLibrary") (machineName library));
      cbn [andb negb]; rewrite IH by done;
      by rewrite ?N.add_0_l, ?N.add_assoc.
Qed.

(** C1, as the class has it. [getUsage] counts the content items for
    which [hasDependencyOn] holds: such an item counts for
    [asMainLibrary] when its [mainLibrary] is the machine name of the
    library, and for [asDependency] otherwise; an item for which
    [hasDependencyOn] does not hold is not counted. *)
Theorem getUsage_counts (library : ILibraryName) (documents : list json) (st : State) :
  stored_metadata (committed st) = Some documents →
  JNull ∉ documents →
  (getUsage library st).1
  = Resolved {| asDependency := count (counts_as_dependency library) documents;
                asMainLibrary := count (counts_as_main library) documents |}.
Proof.
  intros Hstored Hnull. unfold getUsage. rewrite bind_run, listContent_run.
  rewrite (getUsage_loop_counts library _ documents); [done| |].
  - unfold stored_metadata in Hstored. apply mapM_Some in Hstored.
    clear -Hstored Hnull.
    induction Hstored as [|kv d entries documents Hd _ IH]; [done|].
    apply not_elem_of_cons in Hnull as [Hne Hnull].
    constructor; [by split | by apply IH].
  - intros [id row] Hin. rewrite committed_idle. cbn.
    by apply elem_of_map_to_list.
Qed.

(** ** Invariants

    Every method keeps the file system well-formed and the table in
    order, also when it is rejected. *)

Lemma fs_wf_root (fs0 : FS) : fs_wf fs0 → fs0 !! [] = None.
Proof.
  intros Hwf. destruct (fs0 !! []) eqn:E; [|done]. by apply Hwf in E.
Qed.

Lemma fs_isDir_insert_dir (fs0 : FS) (d p : path) :
  fs_isDir p fs0 = true → fs_isDir p (<[d := NDir]> fs0) = true.
Proof.
  unfold fs_isDir. destruct (decide (d = p)) as [->|Hne].
  - by rewrite lookup_insert_eq.
  - by rewrite lookup_insert_ne.
Qed.

Lemma in_directory_insert_dir (fs0 : FS) (d p : path) :
  in_directory fs0 p = true → in_directory (<[d := NDir]> fs0) p = true.
Proof. destruct p; [done|]. apply fs_isDir_insert_dir. Qed.

Lemma fs_remove_wf (p : path) (fs0 : FS) : fs_wf fs0 → fs_wf (fs_remove p fs0).
Proof.
  intros Hwf q n Hq. rewrite fs_remove_lookup in Hq.
  case_decide as Hpre; [done|]. pose proof (Hwf q n Hq) as Hdir. cbn in Hdir.
  unfold in_directory in *. destruct q as [|name q]; [done|].
  unfold fs_isDir in *. rewrite fs_remove_lookup.
  case_decide as Hpre'.
  - destruct Hpre. etrans; [done|].
    destruct (exists_last (l := name :: q)) as (q' & name' & ->); [done|].
    rewrite removelast_last. by apply prefix_app_r.
  - done.
Qed.

Lemma fs_mkdirs_wf (names : list string) (base : path) (fs0 fs1 : FS) :
  fs_wf fs0 → fs_isDir base fs0 = true →
  fs_mkdirs base names fs0 = inr fs1 → fs_wf fs1.
Proof.
  revert base fs0. induction names as [|name names IH]; intros base fs0 Hwf Hbase Hmk.
  - by simplify_eq/=.
  - cbn in Hmk.
    assert (fs_wf (<[base ++ [name] := NDir]> fs0)) as Hwf'.
    { apply map_Forall_insert_2.
      - unfold in_directory. destruct (base ++ [name]) eqn:E; [by destruct base|].
        rewrite <- E, removelast_last. by apply fs_isDir_insert_dir.
      - intros q n Hq. apply in_directory_insert_dir. by apply (Hwf q n). }
    assert (fs_isDir (base ++ [name]) (<[base ++ [name] := NDir]> fs0) = true) as Hdir.
    { unfold fs_isDir. by rewrite lookup_insert_eq. }
    destruct (fs0 !! (base ++ [name])) as [[data|]|]; [done| |]; by eapply IH.
Qed.

Lemma fs_ensureDir_wf (p : path) (fs0 fs1 : FS) :
  fs_wf fs0 → fs_ensureDir p fs0 = inr fs1 → fs_wf fs1.
Proof.
  intros Hwf. apply fs_mkdirs_wf; [done|].
  unfold fs_isDir. by rewrite fs_wf_root.
Qed.

Lemma fs_write_wf (p : path) (data : list Byte.byte) (fs0 fs1 : FS) :
  fs_wf fs0 → fs_write p data fs0 = inr fs1 → fs_wf fs1.
Proof.
  unfold fs_write. intros Hwf Hw.
  destruct (fs_isDir p fs0) eqn:Hp; [done|].
  destruct (fs_isDir (removelast p) fs0) eqn:Hparent; [|done]. simplify_eq.
  assert (p ≠ []) as Hroot.
  { intros ->. unfold fs_isDir in Hp. by rewrite fs_wf_root in Hp. }
  assert (removelast p ≠ p) as Hup.
  { destruct (exists_last Hroot) as (q & name & ->). rewrite removelast_last.
    intros Heq. apply (f_equal length) in Heq. rewrite length_app in Heq. cbn in Heq. lia. }
  assert (∀ q, fs_isDir q fs0 = true → fs_isDir q (<[p := NFile data]> fs0) = true) as Hkeep.
  { intros q Hq. unfold fs_isDir. rewrite lookup_insert_ne; [done|]. by intros ->; congruence. }
  apply map_Forall_insert_2.
  - unfold in_directory. destruct p; [done|]. by apply Hkeep.
  - intros q n Hq. pose proof (Hwf q n Hq) as Hdir. cbn in Hdir.
    unfold in_directory in *. destruct q; [done|]. by apply Hkeep.
Qed.

Lemma initial_state_wf : state_wf initial_state.
Proof. split; [|split]; [apply map_Forall_empty | done | apply map_Forall_empty]. Qed.

Lemma preserves_ret {A : Type} (a : A) : preserves (mret a).
Proof. by intros st. Qed.

Lemma preserves_throw {A : Type} (e : Error) : preserves (throw (A := A) e).
Proof. by intros st. Qed.

Lemma preserves_uncaught {A : Type} (e : Error) : preserves (uncaught (A := A) e).
Proof. by intros st. Qed.

Lemma preserves_reject_then_throw {A : Type} (error e : Error) :
  preserves (reject_then_throw (A := A) error e).
Proof. by intros st. Qed.

Lemma preserves_bind {A B : Type} (c : M A) (f : A → M B) :
  preserves c → (∀ a, preserves (f a)) → preserves (c ≫= f).
Proof.
  intros Hc Hf st Hst. rewrite bind_run. specialize (Hc st Hst).
  destruct (c st) as [[a|e|] st']; [by apply Hf | done | done].
Qed.

Lemma preserves_if {A : Type} (b : bool) (c1 c2 : M A) :
  preserves c1 → preserves c2 → preserves (if b then c1 else c2).
Proof. by destruct b. Qed.

Lemma preserves_check (filename : string) : preserves (check filename).
Proof. unfold check. apply preserves_if; [apply preserves_ret | apply preserves_throw]. Qed.

Lemma preserves_join_id (contentId : IdArg) (rest : list string) :
  preserves (join_id contentId rest).
Proof. destruct contentId; [apply preserves_throw .. | apply preserves_ret]. Qed.

Lemma preserves_pathExists (p : path) : preserves (pathExists p).
Proof. by intros st. Qed.

Lemma preserves_remove (p : path) : preserves (remove p).
Proof. intros st [Hfs Hsrv]. split; [by apply fs_remove_wf | done]. Qed.

Lemma preserves_ensureDir (p : path) : preserves (ensureDir p).
Proof.
  intros st [Hfs Hsrv]. unfold ensureDir.
  destruct (fs_ensureDir p (fs st)) eqn:E; [done|].
  split; [by eapply fs_ensureDir_wf | done].
Qed.

Lemma preserves_pipeToFile (p : path) (readStream : list Byte.byte) :
  preserves (pipeToFile p readStream).
Proof.
  intros st [Hfs Hsrv]. unfold pipeToFile.
  destruct (fs_write p readStream (fs st)) eqn:E; [done|].
  split; [by eapply fs_write_wf | done].
Qed.

Lemma preserves_stat (p : path) : preserves (stat p).
Proof. intros st Hst. unfold stat. by destruct (fs_stat directory_size p (fs st)). Qed.

Lemma preserves_createReadStream (p : path) (start end_ : option N) :
  preserves (createReadStream p start end_).
Proof.
  intros st Hst. unfold createReadStream, throw.
  by destruct start as [s|], end_ as [e|]; try destruct (e <? s).
Qed.

Lemma preserves_glob (dir : path) : preserves (glob dir).
Proof. by intros st. Qed.

Lemma preserves_connection_send (q : Statement) : preserves (connection_send q).
Proof.
  intros st [Hfs Hsrv]. split; [done|]. unfold committed. cbn.
  rewrite settle_snoc. by apply execute_inv.
Qed.

Lemma preserves_connection_query (q : Statement) : preserves (connection_query q).
Proof.
  intros st [Hfs Hsrv]. rewrite connection_query_run. cbn [snd]. split; [done|].
  rewrite committed_idle. by apply execute_inv.
Qed.

Create HintDb preserves discriminated.

#[local] Hint Resolve preserves_ret preserves_throw preserves_uncaught
  preserves_reject_then_throw preserves_if preserves_check
  preserves_join_id preserves_pathExists preserves_remove preserves_ensureDir
  preserves_pipeToFile preserves_stat preserves_createReadStream preserves_glob
  preserves_connection_send preserves_connection_query : preserves.

Lemma preserves_property (o : json) (name : string) : preserves (property o name).
Proof. destruct o; by intros st. Qed.

(** A method is a chain of binds over the platform calls. *)
Ltac preserved :=
  repeat first
    [ apply preserves_bind; [|intros ?]
    | progress eauto with preserves
    | match goal with |- preserves (match ?x with _ => _ end) => destruct x end ].

Lemma preserves_getUsage_loop (library : ILibraryName) (contentIds : list ContentId)
    (asDep asMain : N) :
  preserves (getUsage_loop library contentIds asDep asMain).
Proof.
  revert asDep asMain. induction contentIds as [|contentId rest IH]; intros asDep asMain.
  - apply preserves_ret.
  - cbn [getUsage_loop]. unfold getMetadata, parse_first.
    preserved; apply preserves_property || apply IH.
Qed.

(** X21. Every method keeps the invariant of the store, however it ends:
    afterwards every entry of the disk still lies in a directory, the
    AUTO_INCREMENT counter is still a value of the column [INT UNSIGNED],
    at most 4294967295, and every row of the table still lies below the
    counter, except for the row with the id 4294967295 once the counter
    has reached that value and handed it out. *)
Lemma methods_preserve_wf (metadata content : json) (user : IUser)
    (anyone : option IUser) (contentId : ContentId) (idArg : IdArg) (filename : string)
    (readStream : list Byte.byte) (rangeStart rangeEnd : option N)
    (library : ILibraryName) :
  preserves (addContent metadata content user idArg) ∧
  preserves (addFile contentId filename readStream anyone) ∧
  preserves (contentExists contentId) ∧
  preserves (deleteContent contentId anyone) ∧
  preserves (deleteFile contentId filename anyone) ∧
  preserves (fileExists idArg filename) ∧
  preserves (getFileStats idArg filename user) ∧
  preserves (getFileStream idArg filename user rangeStart rangeEnd) ∧
  preserves (getMetadata contentId anyone) ∧
  preserves (getParameters contentId anyone) ∧
  preserves (getUsage library) ∧
  preserves (listContent anyone) ∧
  preserves (listFiles contentId user).
Proof.
  split_and!.
  - unfold addContent. destruct idArg; preserved.
  - unfold addFile. preserved.
  - unfold contentExists. preserved.
  - unfold deleteContent. preserved.
  - unfold deleteFile. preserved.
  - unfold fileExists. destruct idArg; preserved.
  - unfold getFileStats, fileExists. destruct idArg; preserved.
  - unfold getFileStream, fileExists. destruct idArg; preserved.
  - unfold getMetadata, parse_first. preserved.
  - unfold getParameters, parse_first. preserved.
  - unfold getUsage, listContent. preserved. apply preserves_getUsage_loop.
  - unfold listContent. preserved.
  - unfold listFiles. preserved.
Qed.


(** ** What a method leaves alone *)

#[local] Instance same_files_preorder : PreOrder same_files.
Proof. split; [done|]. unfold same_files. intros st1 st2 st3. congruence. Qed.

#[local] Instance same_table_preorder : PreOrder same_table.
Proof. split; [done|]. unfold same_table. intros st1 st2 st3. congruence. Qed.

#[local] Instance same_connection_preorder : PreOrder same_connection.
Proof.
  split; [done|]. unfold same_connection. intros st1 st2 st3 [? ?] [? ?].
  split; congruence.
Qed.

#[local] Instance unchanged_preorder : PreOrder unchanged.
Proof.
  split; [done|]. intros st1 st2 st3 [? ?] [? ?].
  split; by etrans.
Qed.

Lemma same_connection_table (st st' : State) :
  same_connection st st' → same_table st st'.
Proof. unfold same_connection, same_table, committed. by intros [-> ->]. Qed.

Lemma keeps_ret {A : Type} (R : State → State → Prop) `{!Reflexive R} (a : A) :
  keeps R (mret a).
Proof. by intros st. Qed.

Lemma keeps_throw {A : Type} (R : State → State → Prop) `{!Reflexive R} (e : Error) :
  keeps R (throw (A := A) e).
Proof. by intros st. Qed.

Lemma keeps_bind {A B : Type} (R : State → State → Prop) `{!Transitive R}
    (c : M A) (f : A → M B) :
  keeps R c → (∀ a, keeps R (f a)) → keeps R (c ≫= f).
Proof.
  intros Hc Hf st. rewrite bind_run. specialize (Hc st).
  destruct (c st) as [[a|e|] st']; [|done..]. cbn [snd] in Hc.
  etrans; [done | apply Hf].
Qed.

(** An uncaught exception leaves files, table and connection alone. *)
Lemma keeps_uncaught {A : Type} (e : Error) : keeps unchanged (uncaught (A := A) e).
Proof. by intros st. Qed.

Lemma keeps_uncaught_files {A : Type} (e : Error) : keeps same_files (uncaught (A := A) e).
Proof. by intros st. Qed.

Lemma keeps_reject_then_throw {A : Type} (error e : Error) :
  keeps unchanged (reject_then_throw (A := A) error e).
Proof. by intros st. Qed.

Lemma keeps_reject_then_throw_files {A : Type} (error e : Error) :
  keeps same_files (reject_then_throw (A := A) error e).
Proof. by intros st. Qed.

Lemma keeps_check (R : State → State → Prop) `{!Reflexive R} (filename : string) :
  keeps R (check filename).
Proof. unfold check. destruct (checkFilename filename); by intros st. Qed.

Lemma keeps_join_id (R : State → State → Prop) `{!Reflexive R}
    (contentId : IdArg) (rest : list string) :
  keeps R (join_id contentId rest).
Proof. destruct contentId; by intros st. Qed.

Lemma keeps_property (R : State → State → Prop) `{!Reflexive R}
    (o : json) (name : string) :
  keeps R (property o name).
Proof. destruct o; by intros st. Qed.

(** The calls that only look at the disk. *)
Lemma keeps_pathExists (p : path) : keeps unchanged (pathExists p).
Proof. by intros st. Qed.

Lemma keeps_pathExists_connection (p : path) : keeps same_connection (pathExists p).
Proof. by intros st. Qed.

Lemma keeps_stat (p : path) : keeps unchanged (stat p).
Proof. intros st. unfold stat. by destruct (fs_stat directory_size p (fs st)). Qed.

Lemma keeps_stat_connection (p : path) : keeps same_connection (stat p).
Proof. intros st. unfold stat. by destruct (fs_stat directory_size p (fs st)). Qed.

Lemma keeps_createReadStream (p : path) (start end_ : option N) :
  keeps unchanged (createReadStream p start end_).
Proof.
  intros st. unfold createReadStream, throw.
  by destruct start as [s|], end_ as [e|]; try destruct (e <? s).
Qed.

Lemma keeps_createReadStream_connection (p : path) (start end_ : option N) :
  keeps same_connection (createReadStream p start end_).
Proof.
  intros st. unfold createReadStream, throw.
  by destruct start as [s|], end_ as [e|]; try destruct (e <? s).
Qed.

Lemma keeps_glob (dir : path) : keeps unchanged (glob dir).
Proof. by intros st. Qed.

Lemma keeps_glob_connection (dir : path) : keeps same_connection (glob dir).
Proof. by intros st. Qed.

(** The calls that write to the disk. *)
Lemma keeps_remove (p : path) : keeps same_connection (remove p).
Proof. by intros st. Qed.

Lemma keeps_ensureDir (p : path) : keeps same_connection (ensureDir p).
Proof. intros st. unfold ensureDir. by destruct (fs_ensureDir p (fs st)). Qed.

Lemma keeps_pipeToFile (p : path) (readStream : list Byte.byte) :
  keeps same_connection (pipeToFile p readStream).
Proof. intros st. unfold pipeToFile. by destruct (fs_write p readStream (fs st)). Qed.

(** The statements. *)
Lemma keeps_connection_query_files (q : Statement) :
  keeps same_files (connection_query q).
Proof. intros st. by rewrite connection_query_run. Qed.

Lemma keeps_connection_send_files (q : Statement) :
  keeps same_files (connection_send q).
Proof. by intros st. Qed.

Lemma keeps_connection_query_select (q : Statement) :
  reads_only q = true → keeps unchanged (connection_query q).
Proof.
  intros Hq st. rewrite connection_query_run. split; [done|].
  unfold same_table. cbn [snd]. rewrite committed_idle. by destruct q.
Qed.

Create HintDb keeps discriminated.

#[local] Hint Resolve keeps_ret keeps_throw keeps_uncaught keeps_uncaught_files
  keeps_reject_then_throw keeps_reject_then_throw_files
  keeps_check keeps_join_id keeps_property
  keeps_pathExists keeps_pathExists_connection keeps_stat keeps_stat_connection
  keeps_createReadStream keeps_createReadStream_connection keeps_glob
  keeps_glob_connection keeps_remove keeps_ensureDir keeps_pipeToFile
  keeps_connection_query_files keeps_connection_send_files
  keeps_connection_query_select : keeps.

#[local] Hint Extern 1 (Reflexive _) => apply _ : keeps.
#[local] Hint Extern 1 (reads_only _ = true) => reflexivity : keeps.

Ltac kept :=
  repeat first
    [ apply keeps_bind; [apply _| |intros ?]
    | progress eauto with keeps
    | match goal with |- keeps _ (match ?x with _ => _ end) => destruct x end ].

Lemma keeps_getUsage_loop (library : ILibraryName) (contentIds : list ContentId)
    (asDep asMain : N) :
  keeps unchanged (getUsage_loop library contentIds asDep asMain).
Proof.
  revert asDep asMain. induction contentIds as [|contentId rest IH]; intros asDep asMain.
  - kept.
  - cbn [getUsage_loop]. unfold getMetadata, parse_first. kept; apply IH.
Qed.

(** X1. The methods that only ask -- [contentExists], [fileExists],
    [getFileStats], [getFileStream], [getMetadata], [getParameters],
    [getUsage], [getUserPermissions], [listContent], [listFiles] -- change
    neither the files nor the table, whether they resolve or are
    rejected. *)
Theorem queries_change_nothing (contentId : ContentId) (idArg : IdArg)
    (filename : string) (user : IUser) (anyone : option IUser)
    (rangeStart rangeEnd : option N) (library : ILibraryName) :
  keeps unchanged (contentExists contentId) ∧
  keeps unchanged (fileExists idArg filename) ∧
  keeps unchanged (getFileStats idArg filename user) ∧
  keeps unchanged (getFileStream idArg filename user rangeStart rangeEnd) ∧
  keeps unchanged (getMetadata contentId anyone) ∧
  keeps unchanged (getParameters contentId anyone) ∧
  keeps unchanged (getUsage library) ∧
  keeps unchanged (getUserPermissions contentId user) ∧
  keeps unchanged (listContent anyone) ∧
  keeps unchanged (listFiles contentId user).
Proof.
  split_and!.
  - unfold contentExists. kept.
  - unfold fileExists. destruct idArg; kept.
  - unfold getFileStats, fileExists. destruct idArg; kept.
  - unfold getFileStream, fileExists. destruct idArg; kept.
  - unfold getMetadata, parse_first. kept.
  - unfold getParameters, parse_first. kept.
  - unfold getUsage, listContent. kept. apply keeps_getUsage_loop.
  - unfold getUserPermissions. kept.
  - unfold listContent. kept.
  - unfold listFiles. kept.
Qed.

(** X2. The two stores are written separately: [addFile] and [deleteFile]
    send nothing over the connection and leave the table as it is, and
    [addContent] leaves the files as they are. *)
Theorem writers_keep_apart (contentId : ContentId) (idArg : IdArg) (filename : string)
    (readStream : list Byte.byte) (metadata content : json) (user : IUser)
    (anyone : option IUser) :
  keeps same_connection (addFile contentId filename readStream anyone) ∧
  keeps same_connection (deleteFile contentId filename anyone) ∧
  keeps same_files (addContent metadata content user idArg).
Proof.
  split_and!.
  - unfold addFile. kept.
  - unfold deleteFile. kept.
  - unfold addContent. destruct idArg; kept.
Qed.

(** ** More on the table *)

Lemma addContent_update_run (metadata content : json) (user : IUser)
    (contentId : ContentId) (st : State) :
  addContent metadata content user (Id contentId) st
  = (match (execute (UpdateContent (JSON_stringify metadata) (JSON_stringify content)
                       contentId) (committed st)).1 with
     | inr _ => Resolved contentId
     | inl e => Rejected e
     end,
     {| fs := fs st;
        server := (execute (UpdateContent (JSON_stringify metadata) (JSON_stringify content)
                              contentId) (committed st)).2;
        pending := [];
        trace := trace st ++ [EvQuery (UpdateContent (JSON_stringify metadata)
                                         (JSON_stringify content) contentId)] |}).
Proof.
  unfold addContent. rewrite bind_run, connection_query_run.
  by destruct (execute _ (committed st)) as [[e|results] srv].
Qed.

(** X3. [addContent] with the id of a stored content item replaces the two
    documents of that item: it resolves to the id, the getters resolve to
    the new documents, no id is added or lost, the counter stays, and
    every other row is as before. *)
Theorem addContent_update (metadata parameters : json) (user : IUser)
    (reader : option IUser) (contentId : ContentId) (old : Row) (st : State) :
  rows (committed st) !! contentId = Some old →
  serializable metadata →
  serializable parameters →
  ∃ st',
    addContent metadata parameters user (Id contentId) st = (Resolved contentId, st') ∧
    (getMetadata contentId reader st').1 = Resolved metadata ∧
    (getParameters contentId reader st').1 = Resolved parameters ∧
    dom (rows (committed st')) = dom (rows (committed st)) ∧
    auto_increment (committed st') = auto_increment (committed st) ∧
    ∀ other, other ≠ contentId →
      rows (committed st') !! other = rows (committed st) !! other.
Proof.
  intros Hold Hm Hp. eexists. rewrite addContent_update_run. cbn [execute].
  rewrite Hold, !serializable_valid by done. cbn [andb fst snd].
  split; [reflexivity|].
  rewrite getMetadata_run, getParameters_run, !committed_idle. cbn.
  rewrite lookup_insert_eq. cbn. unfold serializable in *. rewrite Hm, Hp.
  split_and!; try done.
  - rewrite dom_insert_L. apply subseteq_union_1_L, singleton_subseteq_l.
    by apply elem_of_dom_2 in Hold.
  - intros other Hother. by rewrite lookup_insert_ne.
Qed.

(** [addContent] without an id, step by step. *)
Lemma addContent_insert_run (metadata content : json) (user : IUser)
    (absent : IdArg) (st : State) :
  (∀ contentId, absent ≠ Id contentId) →
  serializable metadata →
  serializable content →
  let next := N.min (auto_increment (committed st)) UINT_MAX in
  let q := InsertContent (JSON_stringify metadata) (JSON_stringify content) in
  addContent metadata content user absent st
  = if rows (committed st) !! next is Some _
    then (Rejected (SqlError "ER_DUP_ENTRY"),
          {| fs := fs st; server := committed st; pending := [];
             trace := (trace st ++ [EvQuery q]) ++ [EvUncaught TypeError] |})
    else (Resolved next,
          {| fs := fs st;
             server := {| rows := <[next := {| row_content := JSON_stringify content;
                                              row_metadata := JSON_stringify metadata |}]>
                                    (rows (committed st));
                          auto_increment := N.min (next + 1) UINT_MAX |};
             pending := [];
             trace := trace st ++ [EvQuery q] |}).
Proof.
  intros Habsent Hm Hp. cbn zeta. unfold addContent.
  destruct absent as [| |contentId]; [| |by destruct (Habsent contentId)];
    rewrite bind_run, connection_query_run; cbn [execute];
    rewrite !serializable_valid by done; cbn [andb negb];
    by destruct (rows (committed st) !! N.min (auto_increment (committed st)) UINT_MAX).
Qed.

(** X4. [addContent] without an id (left out or [null]), with documents
    that are JSON-serializable, on a table that is in order, never writes
    over a stored item. When the value of the counter is free,
    [addContent] resolves to it: the id is a value of the column, exists
    afterwards and is the one id that is new, every row that was stored
    is as before, and the counter has moved on by one unless it stood at
    the largest value of the column, where it stays. When the value of
    the counter is taken, which happens only at the largest value of the
    column, [addContent] is rejected with the duplicate-key error of the
    server and the table is as before. *)
Theorem addContent_insert_fresh (metadata parameters : json) (user : IUser)
    (absent : IdArg) (st : State) :
  (∀ contentId, absent ≠ Id contentId) →
  serializable metadata →
  serializable parameters →
  server_inv (committed st) →
  (rows (committed st) !! auto_increment (committed st) = None →
   ∃ st',
     addContent metadata parameters user absent st
       = (Resolved (auto_increment (committed st)), st') ∧
     auto_increment (committed st) ≤ UINT_MAX ∧
     (contentExists (auto_increment (committed st)) st').1 = Resolved true ∧
     dom (rows (committed st')) = {[auto_increment (committed st)]} ∪ dom (rows (committed st)) ∧
     auto_increment (committed st') = N.min (auto_increment (committed st) + 1) UINT_MAX ∧
     ∀ other row, rows (committed st) !! other = Some row →
       rows (committed st') !! other = Some row) ∧
  (is_Some (rows (committed st) !! auto_increment (committed st)) →
   auto_increment (committed st) = UINT_MAX ∧
   (addContent metadata parameters user absent st).1 = Rejected (SqlError "ER_DUP_ENTRY") ∧
   committed (addContent metadata parameters user absent st).2 = committed st).
Proof.
  intros Habsent Hm Hp Hinv.
  pose proof (addContent_insert_run metadata parameters user absent st Habsent Hm Hp) as Hrun.
  cbn zeta in Hrun. rewrite !N.min_l in Hrun by apply Hinv. split.
  - intros Hfree. rewrite Hfree in Hrun. eexists. split; [exact Hrun|].
    split; [by destruct Hinv|].
    rewrite contentExists_run, !committed_idle. cbn.
    rewrite lookup_insert_eq. split_and!; try done.
    + by rewrite dom_insert_L.
    + intros other row Hrow. rewrite lookup_insert_ne; [done|]. congruence.
  - intros [row Hrow]. rewrite Hrow in Hrun. rewrite Hrun.
    split; [by eapply server_inv_taken | done].
Qed.

Lemma deleteContent_rows (contentId : ContentId) (user : option IUser) (st : State) :
  rows (committed (deleteContent contentId user st).2)
  = delete contentId (rows (committed st)).
Proof.
  rewrite deleteContent_run. unfold committed.
  cbn [connection_send snd pending server].
  by rewrite removal_pending, removal_server, settle_snoc.
Qed.

(** X5. After [deleteContent] the row of the content item is gone:
    [contentExists] resolves to false, the getters resolve to [null]
    (which is no error), [listContent] does not list the id, and the rows
    of all other items are as before. *)
Theorem deleteContent_row_gone (contentId : ContentId) (user reader : option IUser)
    (st : State) :
  ∃ st',
    deleteContent contentId user st = (Resolved (), st') ∧
    (contentExists contentId st').1 = Resolved false ∧
    (getMetadata contentId reader st').1 = Resolved JNull ∧
    (getParameters contentId reader st').1 = Resolved JNull ∧
    (∃ ids, (listContent reader st').1 = Resolved ids ∧ contentId ∉ ids) ∧
    ∀ other, other ≠ contentId →
      rows (committed st') !! other = rows (committed st) !! other.
Proof.
  exists (deleteContent contentId user st).2.
  split; [by rewrite deleteContent_run|].
  rewrite contentExists_run, getMetadata_run, getParameters_run, listContent_run.
  rewrite deleteContent_rows, lookup_delete_eq. cbn [fst parse_first].
  split_and!; try done.
  - eexists. split; [done|].
    intros ([id row] & Hid & Hin)%list_elem_of_fmap.
    apply elem_of_map_to_list in Hin. cbn in Hid. subst id.
    by rewrite lookup_delete_eq in Hin.
  - intros other Hother. by rewrite lookup_delete_ne.
Qed.

(** X6. [listContent] lists every stored id once, and an id is listed
    exactly when [contentExists] resolves to true for it. *)
Theorem listContent_lists_what_exists (reader : option IUser) (st : State) :
  ∃ ids,
    (listContent reader st).1 = Resolved ids ∧
    NoDup ids ∧
    ∀ contentId, contentId ∈ ids ↔ (contentExists contentId st).1 = Resolved true.
Proof.
  eexists. rewrite listContent_run. split; [done|]. split.
  - apply NoDup_fst_map_to_list.
  - intros contentId. rewrite contentExists_run. cbn [fst].
    rewrite list_elem_of_fmap. split.
    + intros ([id row] & -> & Hin). apply elem_of_map_to_list in Hin.
      f_equal. apply bool_decide_eq_true_2. by eexists.
    + intros Heq. injection Heq as Heq. apply bool_decide_eq_true_1 in Heq as [row Hrow].
      exists (contentId, row). split; [done|]. by apply elem_of_map_to_list.
Qed.

(** ** More on usage *)

Lemma getUsage_loop_null (library : ILibraryName)
    (entries : list (ContentId * Row)) (documents : list json) :
  Forall2 (λ kv d, JSON_parse (row_metadata kv.2) = Some d) entries documents →
  JNull ∈ documents →
  ∀ (st : State) (asDep asMain : N),
    (∀ kv, kv ∈ entries → rows (committed st) !! kv.1 = Some kv.2) →
    (getUsage_loop library entries.*1 asDep asMain st).1 = Rejected TypeError.
Proof.
  induction 1 as [|[id row] d entries documents Hparse _ IH];
    intros Hnull st asDep asMain Hrows.
  - by apply elem_of_nil in Hnull.
  - cbn [fmap list_fmap fst getUsage_loop]. rewrite bind_run.
    destruct (getMetadata_stored id row d None st) as (st' & -> & Hst');
      [by apply (Hrows (id, row)), list_elem_of_here | done |].
    rewrite bind_run.
    assert (d = JNull ∨ d ≠ JNull) as [->|Hd]
      by (destruct d; (by left) || by right); [done|].
    assert (property d "mainLibrary" st' = (Resolved (property_of d "mainLibrary"), st')) as ->
      by by destruct d.
    apply elem_of_cons in Hnull as [Heq|Hnull]; [done|].
    assert (∀ kv, kv ∈ entries → rows (committed st') !! kv.1 = Some kv.2) as Hrows'.
    { intros kv Hkv. rewrite Hst'. by apply Hrows, list_elem_of_further. }
    destruct (hasDependencyOn d library);
      [destruct (strict_eq_string _ _)|]; by apply IH.
Qed.

(** X7. A content item whose stored metadata is the document [null] makes
    [getUsage] fail for every library: reading [mainLibrary] off [null]
    is a [TypeError]. *)
Theorem getUsage_null_metadata (library : ILibraryName) (documents : list json)
    (st : State) :
  stored_metadata (committed st) = Some documents →
  JNull ∈ documents →
  (getUsage library st).1 = Rejected TypeError.
Proof.
  intros Hstored Hnull. unfold getUsage. rewrite bind_run, listContent_run.
  apply (getUsage_loop_null library _ documents); [|done|].
  - by apply mapM_Some.
  - intros [id row] Hin. rewrite committed_idle. cbn.
    by apply elem_of_map_to_list.
Qed.

Lemma count_split (library : ILibraryName) (documents : list json) :
  count (counts_as_dependency library) documents + count (counts_as_main library) documents
  = count (λ d, hasDependencyOn d library) documents.
Proof.
  induction documents as [|d documents IH]; [done|].
  rewrite !count_cons, <- IH. unfold counts_as_dependency, counts_as_main.
  destruct (hasDependencyOn d library), (isMainLibrary library d); cbn; lia.
Qed.

(** X8. [getUsage] counts no content item twice: the two counters
    together are the number of stored items for which [hasDependencyOn]
    holds, and so at most the number of stored items. *)
Theorem getUsage_total (library : ILibraryName) (documents : list json) (st : State) :
  stored_metadata (committed st) = Some documents →
  JNull ∉ documents →
  ∃ usage,
    (getUsage library st).1 = Resolved usage ∧
    asDependency usage + asMainLibrary usage
      = count (λ d, hasDependencyOn d library) documents ∧
    asDependency usage + asMainLibrary usage ≤ N.of_nat (base.size (rows (committed st))).
Proof.
  intros Hstored Hnull. eexists. split.
  - unfold getUsage. rewrite bind_run, listContent_run.
    rewrite (getUsage_loop_counts library _ documents); [done| |].
    + unfold stored_metadata in Hstored. apply mapM_Some in Hstored.
      clear -Hstored Hnull.
      induction Hstored as [|kv d entries documents Hd _ IH]; [done|].
      apply not_elem_of_cons in Hnull as [Hne Hnull].
      constructor; [by split | by apply IH].
    + intros [id row] Hin. rewrite committed_idle. cbn.
      by apply elem_of_map_to_list.
  - cbn [asDependency asMainLibrary]. rewrite !N.add_0_l, count_split. split; [done|].
    apply mapM_Some, Forall2_length in Hstored.
    unfold ContentId in Hstored. rewrite <- length_map_to_list, Hstored.
    unfold count. pose proof (length_filter (λ d, hasDependencyOn d library = true) documents).
    lia.
Qed.

(** ** More on the file system *)

Lemma fs_mkdirs_keeps (names : list string) (base : path) (fs0 fs1 : FS)
    (q : path) (n : Node) :
  fs_mkdirs base names fs0 = inr fs1 → fs0 !! q = Some n → fs1 !! q = Some n.
Proof.
  revert base fs0. induction names as [|name names IH]; intros base fs0 Hmk Hq.
  - by simplify_eq/=.
  - cbn in Hmk.
    assert (<[base ++ [name] := NDir]> fs0 !! q = Some n) as Hq'.
    { destruct (decide (base ++ [name] = q)) as [<-|Hne].
      - rewrite Hq in Hmk. destruct n; [done|]. by rewrite lookup_insert_eq.
      - by rewrite lookup_insert_ne. }
    destruct (fs0 !! (base ++ [name])) as [[data|]|]; [done| |]; by eapply IH.
Qed.

Lemma fs_mkdirs_new (names : list string) (base : path) (fs0 fs1 : FS)
    (q : path) (n : Node) :
  fs_mkdirs base names fs0 = inr fs1 → fs1 !! q = Some n →
  fs0 !! q = Some n ∨ (n = NDir ∧ q `prefix_of` base ++ names).
Proof.
  revert base fs0. induction names as [|name names IH]; intros base fs0 Hmk Hq.
  - simplify_eq/=. by left.
  - cbn in Hmk.
    assert (fs_mkdirs (base ++ [name]) names (<[base ++ [name] := NDir]> fs0) = inr fs1)
      as Hmk' by by destruct (fs0 !! (base ++ [name])) as [[data|]|].
    destruct (IH _ _ Hmk' Hq) as [Hold|[-> Hpre]].
    + destruct (decide (base ++ [name] = q)) as [<-|Hne].
      * rewrite lookup_insert_eq in Hold. simplify_eq. right. split; [done|].
        apply prefix_app, prefix_cons, prefix_nil.
      * rewrite lookup_insert_ne in Hold by done. by left.
    + right. split; [done|]. by rewrite <- app_assoc in Hpre.
Qed.


(** [ensureDir] fails exactly when a name on the way is a regular file. *)
Lemma fs_mkdirs_is_inr (names : list string) (base : path) (fs0 : FS) :
  (∃ fs1, fs_mkdirs base names fs0 = inr fs1) ↔
  ∀ s data, s ≠ [] → s `prefix_of` names → fs0 !! (base ++ s) ≠ Some (NFile data).
Proof.
  revert base fs0. induction names as [|name names IH]; intros base fs0.
  - split; [|by eexists]. intros _ s data Hs Hpre%prefix_nil_inv. done.
  - cbn [fs_mkdirs]. split.
    + intros [fs1 Hmk] s data Hs Hpre.
      destruct s as [|name' s]; [done|].
      pose proof (prefix_cons_inv_1 _ _ _ _ Hpre) as ->.
      apply prefix_cons_inv_2 in Hpre.
      destruct (decide (s = [])) as [->|Hs'].
      * by destruct (fs0 !! (base ++ [name])) as [[?|]|].
      * assert (∃ fs1, fs_mkdirs (base ++ [name]) names (<[base ++ [name] := NDir]> fs0)
                       = inr fs1)
          as Hsome' by (exists fs1; by destruct (fs0 !! (base ++ [name])) as [[?|]|]).
        apply IH with (s := s) (data := data) in Hsome'; [|done..].
        rewrite cons_middle, app_assoc. rewrite lookup_insert_ne in Hsome'; [done|].
        intros Heq. apply (f_equal length) in Heq. rewrite !length_app in Heq.
        destruct s; [done|]. cbn in Heq. lia.
    + intros Hfree.
      assert (∃ fs1, fs_mkdirs (base ++ [name]) names (<[base ++ [name] := NDir]> fs0)
                     = inr fs1)
        as Hsome'.
      { apply IH. intros s data Hs Hpre. rewrite lookup_insert_ne.
        - rewrite <- app_assoc. apply Hfree; [done|]. by apply prefix_cons.
        - intros Heq. apply (f_equal length) in Heq. rewrite !length_app in Heq.
          destruct s; [done|]. cbn in Heq. lia. }
      destruct (fs0 !! (base ++ [name])) as [[data|]|] eqn:E; [|done..].
      destruct (Hfree [name] data); [done| apply prefix_cons, prefix_nil | done].
Qed.

(** The error of [ensureDir] tells where the regular file lies: [EEXIST]
    when it is the directory asked for, [ENOTDIR] when it lies above. *)
Lemma fs_mkdirs_inl (names : list string) (base : path) (fs0 : FS) (e : Error) :
  fs_mkdirs base names fs0 = inl e →
  (e = FsError "EEXIST" ∧ ∃ data, fs0 !! (base ++ names) = Some (NFile data)) ∨
  (e = FsError "ENOTDIR" ∧
   ∃ s data, s ≠ [] ∧ s `prefix_of` names ∧ s ≠ names ∧ fs0 !! (base ++ s) = Some (NFile data)).
Proof.
  revert base fs0. induction names as [|name names IH]; intros base fs0 Hmk; [done|].
  cbn [fs_mkdirs] in Hmk.
  destruct (fs0 !! (base ++ [name])) as [[data|]|] eqn:E.
  - destruct names as [|name' names]; simplify_eq.
    + left. split; [done|]. by exists data.
    + right. split; [done|]. exists [name], data. split_and!; try done.
      apply prefix_cons, prefix_nil.
  - assert (<[base ++ [name] := NDir]> fs0 = fs0) as Hsame by by apply insert_id.
    rewrite Hsame in Hmk.
    destruct (IH _ _ Hmk) as [[-> [data Hfile]]|[-> (s & data & Hs & Hpre & Hne & Hfile)]].
    + left. split; [done|]. exists data. by rewrite cons_middle, app_assoc.
    + right. split; [done|]. exists (name :: s), data. split_and!; try done.
      * by apply prefix_cons.
      * congruence.
      * by rewrite cons_middle, app_assoc.
  - destruct (IH _ _ Hmk) as [[-> [data Hfile]]|[-> (s & data & Hs & Hpre & Hne & Hfile)]].
    + destruct (decide (names = [])) as [->|Hnames]; [by rewrite app_nil_r, lookup_insert_eq in Hfile|].
      rewrite lookup_insert_ne in Hfile.
      * left. split; [done|]. exists data. by rewrite cons_middle, app_assoc.
      * intros Heq. apply (f_equal length) in Heq. rewrite !length_app in Heq.
        destruct names; [done|]. cbn in Heq. lia.
    + rewrite lookup_insert_ne in Hfile.
      * right. split; [done|]. exists (name :: s), data. split_and!; try done.
        -- by apply prefix_cons.
        -- congruence.
        -- by rewrite cons_middle, app_assoc.
      * intros Heq. apply (f_equal length) in Heq. rewrite !length_app in Heq.
        destruct s; [done|]. cbn in Heq. lia.
Qed.

(** ** Adding files *)

(** [addFile] step by step. *)
Lemma addFile_run (contentId : ContentId) (filename : string)
    (readStream : list Byte.byte) (user : option IUser) (st : State) :
  addFile contentId filename readStream user st
  = if checkFilename filename then
      let target := content_file contentId filename in
      match fs_ensureDir (path_dirname target) (fs st) with
      | inr fs1 =>
          match fs_write target readStream fs1 with
          | inr fs2 =>
              (Resolved (),
               set_fs fs2 (log (EvFs CreateWriteStream target)
                             (log (EvFs EnsureDir (path_dirname target)) st)))
          | inl e =>
              (Rejected e,
               set_fs fs1 (log (EvFs CreateWriteStream target)
                             (log (EvFs EnsureDir (path_dirname target)) st)))
          end
      | inl e => (Rejected e, log (EvFs EnsureDir (path_dirname target)) st)
      end
    else (Rejected (InvalidFilename filename), st).
Proof.
  unfold addFile. rewrite bind_run, check_run.
  destruct (checkFilename filename); [|done].
  rewrite bind_run, join_id_run. fold (content_file contentId filename).
  rewrite bind_run. unfold ensureDir. cbn zeta.
  destruct (fs_ensureDir _ (fs st)) as [e|fs1]; [done|].
  unfold pipeToFile. cbn [fs set_fs log].
  by destruct (fs_write _ readStream fs1).
Qed.

Lemma fs_write_inr (p : path) (data : list Byte.byte) (fs0 fs1 : FS) :
  fs_write p data fs0 = inr fs1 ↔
  fs_isDir p fs0 = false ∧ fs_isDir (removelast p) fs0 = true ∧ fs1 = <[p := NFile data]> fs0.
Proof.
  unfold fs_write. split.
  - destruct (fs_isDir p fs0), (fs_isDir (removelast p) fs0); intros H; by simplify_eq.
  - by intros (-> & -> & ->).
Qed.


(** X10. What [addFile] has written can be read back: after [addFile] has
    resolved, [fileExists] resolves to true, [getFileStats] gives the
    number of bytes that were written, and [getFileStream] without a range
    delivers exactly those bytes -- whatever was stored under the name
    before. *)
Theorem addFile_then_read (contentId : ContentId) (filename : string)
    (readStream : list Byte.byte) (writer : option IUser) (user : IUser) (st st' : State) :
  addFile contentId filename readStream writer st = (Resolved (), st') →
  (fileExists (Id contentId) filename st').1 = Resolved true ∧
  (getFileStats (Id contentId) filename user st').1
    = Resolved {| isFile := true; size := N.of_nat (length readStream) |} ∧
  ∃ stream st'',
    getFileStream (Id contentId) filename user None None st' = (Resolved stream, st'') ∧
    stream_bytes (fs st'') stream = inr readStream.
Proof.
  rewrite addFile_run. destruct (checkFilename filename) eqn:Hok; [|done]. cbn zeta.
  destruct (fs_ensureDir _ (fs st)) as [e|fs1]; [done|].
  destruct (fs_write _ readStream fs1) as [e|fs2] eqn:Hw; [done|].
  apply fs_write_inr in Hw as (_ & _ & ->). intros [= <-].
  set (target := content_file contentId filename).
  assert (∀ s, fs s !! target = Some (NFile readStream) →
               fileExists (Id contentId) filename s
               = (Resolved true, log (EvFs PathExists target) s)) as Hexists.
  { intros s Hs. rewrite fileExists_run by done. fold target.
    unfold fs_pathExists. by rewrite Hs. }
  assert (fs (set_fs (<[target := NFile readStream]> fs1)
                (log (EvFs CreateWriteStream target)
                   (log (EvFs EnsureDir (path_dirname target)) st))) !! target
          = Some (NFile readStream)) as Hfile by apply lookup_insert_eq.
  split; [by rewrite Hexists|]. split.
  - unfold getFileStats. rewrite bind_run, Hexists by done. cbn [negb].
    rewrite bind_run, join_id_run. fold (content_file contentId filename). fold target.
    unfold stat, fs_stat. cbn [fs log]. by rewrite Hfile.
  - eexists _, _. split.
    + unfold getFileStream. rewrite bind_run, Hexists by done. cbn [negb].
      rewrite bind_run, join_id_run. fold (content_file contentId filename). fold target.
      reflexivity.
    + unfold stream_bytes. cbn [rs_path rs_start rs_end fs log]. by rewrite Hfile.
Qed.

(** What [ensureDir] on the directory of a file changes. *)
Lemma fs_ensureDir_frame (target : path) (fs0 fs1 : FS) (q : path) (n : Node) :
  fs_ensureDir (path_dirname target) fs0 = inr fs1 →
  (fs0 !! q = Some n → fs1 !! q = Some n) ∧
  (fs1 !! q = Some n → fs0 !! q = Some n ∨ q `prefix_of` target).
Proof.
  intros Hens. split; [by eapply fs_mkdirs_keeps|]. intros Hq.
  destruct (fs_mkdirs_new _ _ _ _ _ _ Hens Hq) as [?|[_ Hpre]]; [by left|].
  right. cbn [app] in Hpre. etrans; [done|]. unfold path_dirname.
  destruct (decide (target = [])) as [->|Hne]; [done|].
  destruct (exists_last Hne) as (q' & name & ->). rewrite removelast_last.
  by apply prefix_app_r.
Qed.

(** X11. [addFile] never removes or alters another entry of the disk,
    whether it resolves or is rejected: every existing entry other than the
    file itself is as before, and what is new lies on the way to the
    file. *)
Theorem addFile_frame (contentId : ContentId) (filename : string)
    (readStream : list Byte.byte) (user : option IUser) (st : State) (q : path) (n : Node) :
  (q ≠ content_file contentId filename →
   fs st !! q = Some n →
   fs (addFile contentId filename readStream user st).2 !! q = Some n) ∧
  (fs (addFile contentId filename readStream user st).2 !! q = Some n →
   fs st !! q = Some n ∨ q `prefix_of` content_file contentId filename).
Proof.
  rewrite addFile_run. set (target := content_file contentId filename).
  destruct (checkFilename filename); [|by split; [|left]]. cbn zeta.
  destruct (fs_ensureDir (path_dirname target) (fs st)) as [e|fs1] eqn:Hens;
    [by split; [|left]|].
  destruct (fs_ensureDir_frame target (fs st) fs1 q n Hens) as [Hkept Hnew].
  destruct (fs_write target readStream fs1) as [e|fs2] eqn:Hw; cbn [snd fs set_fs log].
  - by split; [intros _|].
  - apply fs_write_inr in Hw as (_ & _ & ->). split.
    + intros Hne Hq. rewrite lookup_insert_ne by done. by apply Hkept.
    + destruct (decide (target = q)) as [<-|Hne]; [by right|].
      by rewrite lookup_insert_ne.
Qed.

(** On a well-formed file system whatever lies above an entry is a
    directory. *)
Lemma fs_wf_above (fs0 : FS) (p rel : path) (n : Node) :
  fs_wf fs0 → p ≠ [] → rel ≠ [] → fs0 !! (p ++ rel) = Some n → fs0 !! p = Some NDir.
Proof.
  intros Hwf Hp. revert n. induction rel as [|name rel IH] using rev_ind; [done|].
  intros n _ Hentry. apply Hwf in Hentry. unfold in_directory in Hentry.
  rewrite app_assoc in Hentry. rewrite removelast_last in Hentry.
  destruct ((p ++ rel) ++ [name]) eqn:E; [by destruct (p ++ rel)|].
  unfold fs_isDir in Hentry.
  destruct (fs0 !! (p ++ rel)) as [[data|]|] eqn:Habove; [done| |].
  - destruct (decide (rel = [])) as [->|Hrel]; [by rewrite app_nil_r in Habove|].
    by eapply IH.
  - apply bool_decide_eq_true_1 in Hentry. by destruct p.
Qed.

(** X22. On a well-formed file system, when a regular file is in the way
    of the directory that [addFile] has to make for a filename that
    [checkFilename] accepts, [addFile] is rejected by [ensureDir], with
    [EEXIST] when the regular file is that directory itself and with
    [ENOTDIR] when it lies above it; no write stream is opened and the
    disk is as before. *)
Theorem addFile_file_in_the_way (contentId : ContentId) (filename : string)
    (readStream : list Byte.byte) (user : option IUser) (st : State)
    (above : path) (data : list Byte.byte) :
  fs_wf (fs st) →
  checkFilename filename = true →
  above `prefix_of` path_dirname (content_file contentId filename) →
  fs st !! above = Some (NFile data) →
  addFile contentId filename readStream user st
  = (Rejected (FsError (if bool_decide (above = path_dirname (content_file contentId filename))
                        then "EEXIST" else "ENOTDIR")),
     log (EvFs EnsureDir (path_dirname (content_file contentId filename))) st).
Proof.
  intros Hwf Hok Hpre Hfile. rewrite addFile_run, Hok. cbn zeta.
  set (dir := path_dirname (content_file contentId filename)) in *.
  assert (above ≠ []) as Habove.
  { intros ->. by rewrite (fs_wf_root _ Hwf) in Hfile. }
  pose proof (fs_mkdirs_is_inr dir [] (fs st)) as Hmk. cbn [app] in Hmk.
  fold (fs_ensureDir dir (fs st)) in Hmk.
  destruct (fs_ensureDir dir (fs st)) as [e|fs1] eqn:Hens.
  - f_equal. f_equal. apply (fs_mkdirs_inl dir [] (fs st)) in Hens. cbn [app] in Hens.
    destruct Hens as [[-> [data' Hdir]]|[-> (s & data' & Hs & Hspre & Hne & Hsfile)]].
    + case_bool_decide as Heq; [done|].
      destruct Hpre as [rel Hrel]. rewrite Hrel in Hdir.
      assert (rel ≠ []) as Hnil by (intros ->; by rewrite app_nil_r in Hrel).
      rewrite (fs_wf_above _ _ _ _ Hwf Habove Hnil Hdir) in Hfile. done.
    + case_bool_decide as Heq; [|done]. subst above.
      destruct Hspre as [rel Hrel].
      assert (rel ≠ []) as Hnil by (intros ->; by rewrite app_nil_r in Hrel).
      rewrite Hrel in Hfile.
      rewrite (fs_wf_above _ _ _ _ Hwf Hs Hnil Hfile) in Hsfile. done.
  - destruct Hmk as [Hfree _]. destruct (Hfree (ex_intro _ fs1 eq_refl) above data); done.
Qed.

(** ** Content items do not share files *)

(** A path below the directory of one content item is not on the way to,
    nor below, a file of another. *)
Lemma other_content_apart (contentId other : ContentId) (filename : string) (q : path) :
  other ≠ contentId →
  confined filename →
  content_dir other `prefix_of` q →
  ¬ q `prefix_of` content_file contentId filename ∧
  ¬ content_file contentId filename `prefix_of` q ∧
  ¬ content_dir contentId `prefix_of` q.
Proof.
  intros Hne Hconf Hq.
  destruct (content_file_below contentId filename Hconf) as [Hfile _].
  assert (∀ l, content_dir other `prefix_of` l → content_dir contentId `prefix_of` l → False)
    as Happart.
  { intros l H1 H2.
    destruct (prefix_weak_total _ _ _ H1 H2) as [H|H]; apply content_dirs_apart in H; congruence. }
  split_and!.
  - intros Hpre. apply (Happart (content_file contentId filename)); [by etrans | done].
  - intros Hpre. apply (Happart q); [done | by etrans].
  - intros Hpre. by apply (Happart q).
Qed.

Lemma deleteFile_run (contentId : ContentId) (filename : string)
    (user : option IUser) (st : State) :
  deleteFile contentId filename user st
  = if checkFilename filename then
      let target := content_file contentId filename in
      if fs_pathExists target (fs st)
      then (Resolved (),
            set_fs (fs_remove target (fs st))
              (log (EvFs Remove target) (log (EvFs PathExists target) st)))
      else (Rejected (H5pError "storage-file-implementations:delete-content-file-not-found" 404),
            log (EvFs PathExists target) st)
    else (Rejected (InvalidFilename filename), st).
Proof.
  unfold deleteFile. rewrite bind_run, check_run.
  destruct (checkFilename filename); [|done].
  rewrite bind_run, join_id_run. fold (content_file contentId filename).
  rewrite bind_run. unfold pathExists at 1. cbn zeta.
  by destruct (fs_pathExists (content_file contentId filename) (fs st)).
Qed.

(** X12. The files of a content item are out of reach of the methods
    called for another item: [addFile] and [deleteFile] with a confined
    filename, and [deleteContent], leave every path below the directory of
    another content item as it is. *)
Theorem other_content_untouched (contentId other : ContentId) (filename : string)
    (readStream : list Byte.byte) (user : option IUser) (st : State) (q : path) :
  other ≠ contentId →
  confined filename →
  content_dir other `prefix_of` q →
  fs (addFile contentId filename readStream user st).2 !! q = fs st !! q ∧
  fs (deleteFile contentId filename user st).2 !! q = fs st !! q ∧
  fs (deleteContent contentId user st).2 !! q = fs st !! q.
Proof.
  intros Hne Hconf Hq.
  destruct (other_content_apart contentId other filename q Hne Hconf Hq)
    as (Hway & Hbelow & Hdir).
  split_and!.
  - rewrite addFile_run. destruct (checkFilename filename); [|done]. cbn zeta.
    destruct (fs_ensureDir _ (fs st)) as [e|fs1] eqn:Hens; [done|].
    assert (fs1 !! q = fs st !! q) as Hsame.
    { destruct (fs st !! q) as [n|] eqn:E.
      - by apply (fs_ensureDir_frame _ _ _ q n Hens).
      - destruct (fs1 !! q) as [n|] eqn:E1; [|done].
        apply (fs_ensureDir_frame _ _ _ q n Hens) in E1 as [?|?]; [congruence | done]. }
    destruct (fs_write _ readStream fs1) as [e|fs2] eqn:Hw; cbn [snd fs set_fs log]; [done|].
    apply fs_write_inr in Hw as (_ & _ & ->). rewrite lookup_insert_ne; [done|].
    intros Heq. apply Hway. by rewrite Heq.
  - rewrite deleteFile_run. destruct (checkFilename filename); [|done]. cbn zeta.
    destruct (fs_pathExists _ (fs st)); [|done]. cbn [snd fs set_fs log].
    rewrite fs_remove_lookup. by rewrite decide_False.
  - rewrite deleteContent_run. cbn [connection_send snd fs]. unfold removal.
    destruct (fs_pathExists _ (fs st)); [|done]. cbn [fs set_fs log].
    rewrite fs_remove_lookup. by rewrite decide_False.
Qed.

(** ** Deleting files *)

Lemma content_file_not_root (contentId : ContentId) (filename : string) :
  confined filename → content_file contentId filename ≠ [].
Proof.
  intros Hconf. rewrite content_file_confined by done.
  intros [Hdir _]%app_eq_nil. by apply content_dir_not_root in Hdir.
Qed.

(** X13. [deleteFile] on a name under which something is stored -- a file,
    or a directory with all that is in it -- resolves and leaves nothing at
    or below the path; afterwards [fileExists] resolves to false, and both
    [getFileStats] and a second [deleteFile] are rejected with a 404
    error. *)
Theorem deleteFile_then_gone (contentId : ContentId) (filename : string)
    (user : option IUser) (reader : IUser) (st : State) :
  checkFilename filename = true →
  confined filename →
  fs_pathExists (content_file contentId filename) (fs st) = true →
  ∃ st',
    deleteFile contentId filename user st = (Resolved (), st') ∧
    (∀ q, content_file contentId filename `prefix_of` q → fs st' !! q = None) ∧
    (fileExists (Id contentId) filename st').1 = Resolved false ∧
    (getFileStats (Id contentId) filename reader st').1
      = Rejected (H5pError "content-file-missing" 404) ∧
    (deleteFile contentId filename user st').1
      = Rejected (H5pError "storage-file-implementations:delete-content-file-not-found" 404).
Proof.
  intros Hok Hconf Hfound. set (target := content_file contentId filename) in *.
  eexists. split.
  { rewrite deleteFile_run, Hok. cbn zeta. fold target. by rewrite Hfound. }
  assert (∀ q, target `prefix_of` q → fs_remove target (fs st) !! q = None) as Hgone.
  { intros q Hq. rewrite fs_remove_lookup. by rewrite decide_True. }
  assert (fs_pathExists target (fs_remove target (fs st)) = false) as Hmissing.
  { unfold fs_pathExists. rewrite Hgone by done.
    by apply bool_decide_eq_false_2, content_file_not_root. }
  cbn [fs set_fs log]. split; [done|]. split_and!.
  - rewrite fileExists_run by done. fold target. cbn [fst fs set_fs log]. by rewrite Hmissing.
  - unfold getFileStats. rewrite bind_run, fileExists_run by done. fold target.
    cbn [fs set_fs log]. by rewrite Hmissing.
  - rewrite deleteFile_run, Hok. cbn zeta. fold target. cbn [fs set_fs log].
    by rewrite Hmissing.
Qed.

(** X14. On a well-formed file system one [deleteContent] clears the
    directory of the content item -- nothing is left at or below it,
    [listFiles] resolves to the empty list, [fileExists] to false for every
    confined name -- and leaves every path outside that directory as it
    is. *)
Theorem deleteContent_clears_directory (contentId : ContentId) (user : option IUser)
    (reader : IUser) (filename : string) (st : State) :
  fs_wf (fs st) →
  checkFilename filename = true →
  confined filename →
  ∃ st',
    deleteContent contentId user st = (Resolved (), st') ∧
    (∀ q, content_dir contentId `prefix_of` q → fs st' !! q = None) ∧
    (∀ q, ¬ content_dir contentId `prefix_of` q → fs st' !! q = fs st !! q) ∧
    (listFiles contentId reader st').1 = Resolved [] ∧
    (fileExists (Id contentId) filename st').1 = Resolved false.
Proof.
  intros Hwf Hok Hconf. eexists. split; [by rewrite deleteContent_run|].
  cbn [connection_send snd fs].
  assert (∀ q, content_dir contentId `prefix_of` q → fs (removal contentId st) !! q = None)
    as Hgone by (intros q Hq; by apply removal_clears).
  split; [done|]. split_and!.
  - intros q Hq. unfold removal. destruct (fs_pathExists _ (fs st)); [|done].
    cbn [fs set_fs log]. rewrite fs_remove_lookup. by rewrite decide_False.
  - unfold listFiles. rewrite bind_run, join_id_run.
    fold (content_dir contentId). rewrite bind_run. unfold glob. cbn [fst fs].
    by rewrite fs_glob_empty.
  - rewrite fileExists_run by done. cbn [fst fs]. unfold fs_pathExists.
    rewrite Hgone by by apply content_file_below.
    f_equal. by apply bool_decide_eq_false_2, content_file_not_root.
Qed.

(** ** Asking for files *)

(** X15. [getFileStats] and [getFileStream] are rejected with the 404 error
    [content-file-missing] when nothing is stored under the name, after one
    look at the path and without opening anything; without a content id
    they are rejected the same way without any look at the disk. *)
Theorem missing_file_is_404 (contentId : ContentId) (file : string) (user : IUser)
    (rangeStart rangeEnd : option N) (st : State) :
  checkFilename file = true →
  (fs_pathExists (content_file contentId file) (fs st) = false →
   getFileStats (Id contentId) file user st
     = (Rejected (H5pError "content-file-missing" 404),
        log (EvFs PathExists (content_file contentId file)) st) ∧
   getFileStream (Id contentId) file user rangeStart rangeEnd st
     = (Rejected (H5pError "content-file-missing" 404),
        log (EvFs PathExists (content_file contentId file)) st)) ∧
  getFileStats undefined file user st = (Rejected (H5pError "content-file-missing" 404), st) ∧
  getFileStream undefined file user rangeStart rangeEnd st
    = (Rejected (H5pError "content-file-missing" 404), st).
Proof.
  intros Hok. split_and!.
  - intros Hmissing. unfold getFileStats, getFileStream.
    rewrite !bind_run, fileExists_run by done. by rewrite Hmissing.
  - unfold getFileStats. by rewrite bind_run, fileExists_undefined_run.
  - unfold getFileStream. by rewrite bind_run, fileExists_undefined_run.
Qed.

(** X16. [getFileStats] of a stored file resolves to its length in bytes;
    the name of a directory is not refused either, since the existence
    check does not tell files from directories: it resolves to the stats
    of the directory, with the size that the file system reports for
    it. *)
Theorem getFileStats_found (contentId : ContentId) (file : string) (user : IUser)
    (node : Node) (st : State) :
  checkFilename file = true →
  fs st !! content_file contentId file = Some node →
  (getFileStats (Id contentId) file user st).1
  = Resolved match node with
             | NFile data => {| isFile := true; size := N.of_nat (length data) |}
             | NDir =>
                 {| isFile := false;
                    size := directory_size (content_file contentId file) (fs st) |}
             end.
Proof.
  intros Hok Hnode. unfold getFileStats. rewrite bind_run, fileExists_run by done.
  unfold fs_pathExists. rewrite Hnode. cbn [negb].
  rewrite bind_run, join_id_run. fold (content_file contentId file).
  unfold stat, fs_stat. cbn [fs log]. rewrite Hnode. by destruct node.
Qed.

Lemma getFileStream_found_run (contentId : ContentId) (file : string) (user : IUser)
    (rangeStart rangeEnd : option N) (node : Node) (st : State) :
  checkFilename file = true →
  fs st !! content_file contentId file = Some node →
  getFileStream (Id contentId) file user rangeStart rangeEnd st
  = createReadStream (content_file contentId file) rangeStart rangeEnd
      (log (EvFs PathExists (content_file contentId file)) st).
Proof.
  intros Hok Hnode. unfold getFileStream. rewrite bind_run, fileExists_run by done.
  unfold fs_pathExists. rewrite Hnode. cbn [negb].
  by rewrite bind_run, join_id_run.
Qed.

(** X17. For a stored file and any range that is not reversed and whose
    bounds, when given, are safe integers (at most 2^53 - 1),
    [getFileStream] resolves to a stream that delivers the bytes from
    offset [rangeStart] (0 when left out) up to and including offset
    [rangeEnd] (the last byte when left out), and stops at the end of the
    file when the range reaches beyond it. *)
Theorem getFileStream_any_range (contentId : ContentId) (file : string) (user : IUser)
    (rangeStart rangeEnd : option N) (data : list Byte.byte) (st : State) :
  checkFilename file = true →
  fs st !! content_file contentId file = Some (NFile data) →
  safe_integer rangeStart = true →
  safe_integer rangeEnd = true →
  (∀ s e, rangeStart = Some s → rangeEnd = Some e → s ≤ e) →
  ∃ stream st' bytes,
    getFileStream (Id contentId) file user rangeStart rangeEnd st = (Resolved stream, st') ∧
    stream_bytes (fs st') stream = inr bytes ∧
    ∀ i : nat,
      bytes !! i
      = if within_end rangeEnd (default 0 rangeStart + N.of_nat i)
        then data !! (N.to_nat (default 0%N rangeStart) + i)%nat
        else None.
Proof.
  intros Hok Hfile _ _ Hrange.
  assert (createReadStream (content_file contentId file) rangeStart rangeEnd
            (log (EvFs PathExists (content_file contentId file)) st)
          = (Resolved {| rs_path := content_file contentId file;
                         rs_start := rangeStart; rs_end := rangeEnd |},
             log (EvFs CreateReadStream (content_file contentId file))
               (log (EvFs PathExists (content_file contentId file)) st))) as Hopen.
  { unfold createReadStream. destruct rangeStart as [s|], rangeEnd as [e|]; try done.
    destruct (e <? s) eqn:E; [|done]. apply N.ltb_lt in E.
    specialize (Hrange s e eq_refl eq_refl). lia. }
  eexists _, _, _. split; [by rewrite (getFileStream_found_run _ _ _ _ _ (NFile data))|].
  split.
  { unfold stream_bytes. cbn [rs_path rs_start rs_end fs log]. rewrite Hfile. reflexivity. }
  intros i. destruct rangeEnd as [e|]; cbn [within_end].
  - destruct (default 0 rangeStart + N.of_nat i <=? e) eqn:Hi.
    + apply N.leb_le in Hi. rewrite lookup_take_lt by lia. by rewrite lookup_drop.
    + apply N.leb_gt in Hi. rewrite lookup_take_ge; [done|]. lia.
  - by rewrite lookup_drop.
Qed.

(** X18. A reversed range is refused only after the file was found: for a
    stored file [getFileStream] with [rangeStart] beyond [rangeEnd] is
    rejected with a [RangeError]; when nothing is stored under the name
    the 404 error comes first. *)
Theorem getFileStream_reversed_range (contentId : ContentId) (file : string) (user : IUser)
    (rangeStart rangeEnd : N) (st : State) :
  checkFilename file = true →
  rangeEnd < rangeStart →
  (getFileStream (Id contentId) file user (Some rangeStart) (Some rangeEnd) st).1
  = if fs_pathExists (content_file contentId file) (fs st)
    then Rejected RangeError
    else Rejected (H5pError "content-file-missing" 404).
Proof.
  intros Hok Hrev. unfold getFileStream. rewrite bind_run, fileExists_run by done.
  destruct (fs_pathExists _ (fs st)); cbn [negb]; [|done].
  rewrite bind_run, join_id_run. unfold createReadStream.
  apply N.ltb_lt in Hrev. by rewrite Hrev.
Qed.

(** ** More on listing *)

Lemma listFiles_run (contentId : ContentId) (user : IUser) (st : State) :
  listFiles contentId user st
  = (Resolved (path_relative (content_dir contentId) <$> fs_glob (content_dir contentId) (fs st)),
     log (EvFs Glob (content_dir contentId)) st).
Proof.
  unfold listFiles. by rewrite bind_run, join_id_run.
Qed.

Lemma contains_dot_app (a b : string) :
  contains_dot (a +:+ b) = contains_dot a || contains_dot b.
Proof.
  induction a as [|c a IH]; [done|].
  change (String c a +:+ b) with (String c (a +:+ b)). cbn [contains_dot].
  by rewrite IH, orb_assoc.
Qed.

Lemma concat_last_dot (rel : path) (name : string) :
  last rel = Some name → contains_dot name = true →
  contains_dot (String.concat "/" rel) = true.
Proof.
  induction rel as [|seg rel IH]; [done|]. intros Hlast Hdot.
  destruct rel as [|seg' rel]; [by simplify_eq/=|].
  change (String.concat "/" (seg :: seg' :: rel))
    with (seg +:+ "/" +:+ String.concat "/" (seg' :: rel)).
  rewrite !contains_dot_app, IH by done. by rewrite !orb_true_r.
Qed.

Lemma starts_with_dot_app (a b : string) :
  starts_with_dot a = false → a ≠ EmptyString ∨ starts_with_dot b = false →
  starts_with_dot (a +:+ b) = false.
Proof. destruct a; [by intros _ [?|?]|done]. Qed.

Lemma concat_first_no_dot (rel : path) :
  glob_selects rel = true → starts_with_dot (String.concat "/" rel) = false.
Proof.
  unfold glob_selects. destruct rel as [|seg rel]; [done|].
  destruct rel as [|seg' rel].
  - cbn. unfold matches_star_dot_star. by destruct (starts_with_dot seg).
  - destruct (last (seg :: seg' :: rel)); [|done].
    intros [_ Hwalk]%andb_true_iff. cbn in Hwalk.
    apply andb_true_iff in Hwalk as [Hseg _].
    change (String.concat "/" (seg :: seg' :: rel))
      with (seg +:+ "/" +:+ String.concat "/" (seg' :: rel)).
    apply starts_with_dot_app; [by destruct (starts_with_dot seg)|].
    by right.
Qed.

(** X19. Every name [listFiles] resolves to holds a dot and does not start
    with one: a file stored under a name with no dot in it is never
    listed. *)
Theorem listFiles_names_have_dot (contentId : ContentId) (user : IUser) (st : State) :
  ∃ names,
    (listFiles contentId user st).1 = Resolved names ∧
    ∀ name, name ∈ names →
      contains_dot name = true ∧ starts_with_dot name = false.
Proof.
  eexists. rewrite listFiles_run. split; [done|].
  intros name (p & -> & (n & Hp & Hm)%fs_glob_spec)%list_elem_of_fmap.
  unfold glob_matches in Hm. destruct n as [data|]; [|done].
  apply andb_true_iff in Hm as [_ Hsel]. unfold path_relative.
  split; [|by apply concat_first_no_dot].
  unfold glob_selects in Hsel.
  destruct (last (drop (length (content_dir contentId)) p)) as [name|] eqn:Hlast; [|done].
  apply andb_true_iff in Hsel as [[_ Hdot]%andb_true_iff _].
  by eapply concat_last_dot.
Qed.

Lemma segments_not_nil (s : string) : segments s ≠ [].
Proof. induction s as [|c s IH]; [done|]. cbn. by repeat case_match. Qed.

(** Joining the segments of a name gives the name back. *)
Lemma concat_segments (s : string) : String.concat "/" (segments s) = s.
Proof.
  induction s as [|c s IH]; [done|]. cbn [segments].
  pose proof (segments_not_nil s) as Hne.
  destruct (Ascii.eqb_spec c "/") as [->|Hc].
  - destruct (segments s) as [|seg segs] eqn:E; [done|].
    change (String.concat "/" (EmptyString :: seg :: segs))
      with ("/" +:+ String.concat "/" (seg :: segs)). by rewrite IH.
  - destruct (segments s) as [|seg segs] eqn:E; [done|].
    destruct segs as [|seg' segs]; [cbn in *; by rewrite IH|].
    change (String.concat "/" (String c seg :: seg' :: segs))
      with (String c (String.concat "/" (seg :: seg' :: segs))). by rewrite IH.
Qed.

(** X20. A file that was added is listed under the name it was added
    with, when that name is made of plain names only and is one the
    pattern selects. *)
Theorem addFile_then_listed (contentId : ContentId) (filename : string)
    (readStream : list Byte.byte) (writer : option IUser) (user : IUser) (st st' : State) :
  addFile contentId filename readStream writer st = (Resolved (), st') →
  Forall (λ seg, is_name seg = true ∧ seg ≠ "..") (segments filename) →
  glob_selects (segments filename) = true →
  ∃ names, (listFiles contentId user st').1 = Resolved names ∧ filename ∈ names.
Proof.
  intros Hadd Hplain Hsel.
  assert (filter (λ seg, is_name seg = true) (segments filename) = segments filename) as Hnames.
  { clear -Hplain. induction Hplain as [|seg segs [Hseg _] _ IH]; [done|].
    by rewrite filter_cons_True, IH. }
  assert (confined filename) as Hconf.
  { split.
    - intros Hin. rewrite Forall_forall in Hplain. by destruct (Hplain _ Hin).
    - rewrite Hnames. apply segments_not_nil. }
  rewrite addFile_run in Hadd. destruct (checkFilename filename); [|done]. cbn zeta in Hadd.
  destruct (fs_ensureDir _ (fs st)) as [e|fs1]; [done|].
  destruct (fs_write _ readStream fs1) as [e|fs2] eqn:Hw; [done|].
  apply fs_write_inr in Hw as (_ & _ & ->). injection Hadd as <-.
  eexists. rewrite listFiles_run. split; [done|].
  apply list_elem_of_fmap. exists (content_file contentId filename). split.
  - unfold path_relative. rewrite content_file_confined, Hnames by done.
    by rewrite drop_app_length, concat_segments.
  - apply fs_glob_spec. exists (NFile readStream). cbn [fs set_fs log].
    split; [apply lookup_insert_eq|]. unfold glob_matches.
    rewrite content_file_confined, Hnames by done.
    rewrite drop_app_length, Hsel. rewrite bool_decide_eq_true_2; [done|].
    by apply prefix_app_r.
Qed.

End ChipfabrikMySqlContentStorage.

(** ** The class on the fixture *)

Section OnTheFixture.
Import Fixture.

(** The platform functions on a few inputs. *)
Example path_join_resolves :
  path_join cwd ["h5p/content"; "12"; "images/./a.png"]
    = ["home"; "h5p"; "h5p"; "content"; "12"; "images"; "a.png"] ∧
  path_join cwd [contentPath; "12"; "../13/a.png"]
    = ["srv"; "h5p"; "content"; "13"; "a.png"] ∧
  path_join cwd ["/"; ".."; "etc//passwd"] = ["etc"; "passwd"].
Proof. vm_compute. done. Qed.

Example star_dot_star :
  matches_star_dot_star "a.txt" = true ∧
  matches_star_dot_star "archive.tar.gz" = true ∧
  matches_star_dot_star "a." = true ∧
  matches_star_dot_star "LICENSE" = false ∧
  matches_star_dot_star ".htaccess" = false ∧
  glob_selects ["images"; "a.png"] = true ∧
  glob_selects [".cache"; "a.png"] = false.
Proof. vm_compute. done. Qed.

Example checkFilename_spec_examples :
  checkFilename_spec "images/a.png" = true ∧
  checkFilename_spec "a/../../etc/passwd" = false ∧
  checkFilename_spec "/etc/passwd" = false ∧
  checkFilename_spec EmptyString = false ∧
  checkFilename_spec ".." = true ∧
  checkFilename_spec "sub/.." = true.
Proof. vm_compute. done. Qed.

(** The files of the fixture are what three calls of [addFile] leave on an
    empty disk. *)
Example files_added :
  (( _ ← addFile (IUser := unit) checkFilename_spec contentPath cwd 1 "a.txt"
          (bytes_of "The quick brown fox jumps over the lazy dog") None;
     _ ← addFile (IUser := unit) checkFilename_spec contentPath cwd 1 "sub/b.txt"
          (bytes_of "b") None;
     addFile (IUser := unit) checkFilename_spec contentPath cwd 1 "LICENSE"
          (bytes_of "MIT") None)
     {| fs := ∅; server := three_items; pending := []; trace := [] |}).2
  = {| fs := files; server := three_items; pending := [];
       trace := [EvFs EnsureDir dir1;
                 EvFs CreateWriteStream (dir1 ++ ["a.txt"]);
                 EvFs EnsureDir (dir1 ++ ["sub"]);
                 EvFs CreateWriteStream (dir1 ++ ["sub"; "b.txt"]);
                 EvFs EnsureDir dir1;
                 EvFs CreateWriteStream (dir1 ++ ["LICENSE"])] |}.
Proof. vm_compute. reflexivity. Qed.

(** The rows of the fixture are what three calls of [addContent] leave in
    an empty table. *)
Example rows_added :
  (( _ ← addContent Json.stringify Json.parse a_quiz parameters tt undefined;
     _ ← addContent Json.stringify Json.parse a_course parameters tt undefined;
     addContent Json.stringify Json.parse a_text parameters tt undefined)
     initial_state).1
  = Resolved 3 ∧
  server
    (( _ ← addContent Json.stringify Json.parse a_quiz parameters tt undefined;
       _ ← addContent Json.stringify Json.parse a_course parameters tt undefined;
       addContent Json.stringify Json.parse a_text parameters tt undefined)
       initial_state).2
  = three_items.
Proof. vm_compute. done. Qed.

(** The fixture of C1: of the three items one has the quiz library as
    its main library, one depends on it, one has nothing to do with
    it. *)
Example getUsage_three_items :
  (getUsage (IUser := unit) preloads Json.parse quiz state).1
  = Resolved {| asDependency := 1; asMainLibrary := 1 |}.
Proof. vm_compute. reflexivity. Qed.

(** C1, as the claim has it, fails: the one stored item has the quiz
    library as its [mainLibrary], and [asMainLibrary] stays 0, because
    [hasDependencyOn] does not hold for the item. *)
Lemma getUsage_main_library_not_counted :
  (getMetadata (IUser := unit) Json.parse 1 None bare_state).1 = Resolved a_bare_quiz ∧
  property_of a_bare_quiz "mainLibrary" = Some (JString (machineName quiz)) ∧
  (getUsage (IUser := unit) preloads Json.parse quiz bare_state).1
  = Resolved {| asDependency := 0; asMainLibrary := 0 |}.
Proof. vm_compute. done. Qed.

Lemma getUsage_counts_witness :
  stored_metadata Json.parse (committed Json.parse state) = Some [a_course; a_text; a_quiz] ∧
  (JNull ∉ [a_course; a_text; a_quiz]) ∧
  (getUsage (IUser := unit) preloads Json.parse quiz state).1
  = Resolved {| asDependency := 1; asMainLibrary := 1 |}.
Proof.
  assert (JNull ∉ [a_course; a_text; a_quiz]) as Hnull
    by by intros [?|[?|[?|?%elem_of_nil]%elem_of_cons]%elem_of_cons]%elem_of_cons.
  assert (stored_metadata Json.parse (committed Json.parse state)
          = Some [a_course; a_text; a_quiz]) as Hstored
    by (vm_compute; reflexivity).
  split; [done|]. split; [done|].
  exact (getUsage_counts (IUser := unit) preloads Json.parse quiz _ state Hstored Hnull).
Defined.

(** C2, as the claim has it, fails: [LICENSE] is a regular file in the
    directory of content 1, and [listFiles] does not list it. *)
Lemma listFiles_omits_name_without_dot :
  fs state !! (content_dir contentPath cwd 1 ++ ["LICENSE"]) = Some (NFile (bytes_of "MIT")) ∧
  (listFiles (IUser := unit) contentPath cwd 1 tt state).1 = Resolved ["sub/b.txt"; "a.txt"].
Proof. vm_compute. done. Qed.

Lemma deleteContent_twice_witness :
  fs_wf (fs state) ∧
  ∃ st1 st2,
    deleteContent (IUser := unit) contentPath cwd 1 None state = (Resolved (), st1) ∧
    deleteContent (IUser := unit) contentPath cwd 1 None st1 = (Resolved (), st2) ∧
    fs st2 = fs st1 ∧
    committed Json.parse st2 = committed Json.parse st1 ∧
    (contentExists Json.parse 1 st2).1 = Resolved false ∧
    (listFiles contentPath cwd 1 tt st2).1 = Resolved [].
Proof.
  assert (fs_wf (fs state)) as Hwf
    by (apply (bool_decide_unpack _); vm_compute; exact I).
  split; [done|].
  exact (deleteContent_twice (IUser := unit) Json.parse contentPath cwd 1 None tt state Hwf).
Defined.

Lemma addContent_round_trip_witness :
  serializable Json.stringify Json.parse a_text ∧
  serializable Json.stringify Json.parse parameters ∧
  server_wf (committed Json.parse state) ∧
  ∃ id st',
    addContent Json.stringify Json.parse a_text parameters tt undefined state
      = (Resolved id, st') ∧
    (getMetadata (IUser := unit) Json.parse id None st').1 = Resolved a_text ∧
    (getParameters (IUser := unit) Json.parse id None st').1 = Resolved parameters.
Proof.
  assert (serializable Json.stringify Json.parse a_text) as Hm
    by (vm_compute; reflexivity).
  assert (serializable Json.stringify Json.parse parameters) as Hp
    by (vm_compute; reflexivity).
  assert (server_wf (committed Json.parse state)) as Hwf
    by (apply (bool_decide_unpack _); vm_compute; exact I).
  split; [done|]. split; [done|]. split; [done|].
  exact (addContent_round_trip Json.stringify Json.parse a_text parameters tt None state Hm Hp Hwf).
Defined.



Lemma fileExists_without_id_witness :
  checkFilename_spec "a.txt" = true ∧
  fileExists checkFilename_spec contentPath cwd undefined "a.txt" state
  = (Resolved false, state).
Proof.
  assert (checkFilename_spec "a.txt" = true) as Hok by (vm_compute; reflexivity).
  split; [done|].
  exact (fileExists_without_id checkFilename_spec contentPath cwd "a.txt" state Hok).
Defined.

Lemma deleteFile_not_found_iff_witness :
  checkFilename_spec "a.txt" = true ∧
  fs_pathExists (content_file contentPath cwd 1 "a.txt") (fs state) = true ∧
  ∃ st',
    deleteFile (IUser := unit) checkFilename_spec contentPath cwd 1 "a.txt" None state
      = (Resolved (), st') ∧
    fs st' !! content_file contentPath cwd 1 "a.txt" = None ∧
    ∀ q, ¬ content_file contentPath cwd 1 "a.txt" `prefix_of` q → fs st' !! q = fs state !! q.
Proof.
  assert (checkFilename_spec "a.txt" = true) as Hok by (vm_compute; reflexivity).
  assert (fs_pathExists (content_file contentPath cwd 1 "a.txt") (fs state) = true) as Hfound
    by (vm_compute; reflexivity).
  split; [done|]. split; [done|].
  exact (proj2 (deleteFile_not_found_iff (IUser := unit) checkFilename_spec contentPath cwd
                  1 "a.txt" None state Hok) Hfound).
Defined.

Lemma getFileStream_range_witness :
  checkFilename_spec "a.txt" = true ∧
  fs state !! content_file contentPath cwd 1 "a.txt"
    = Some (NFile (bytes_of "The quick brown fox jumps over the lazy dog")) ∧
  ∃ stream st' bytes,
    getFileStream checkFilename_spec contentPath cwd (Id 1) "a.txt" tt (Some 10) (Some 19) state
      = (Resolved stream, st') ∧
    fs st' = fs state ∧
    stream_bytes (fs st') stream = inr bytes ∧
    N.of_nat (length bytes) = 19 - 10 + 1 ∧
    ∀ i : nat, (i < length bytes)%nat →
      bytes !! i = bytes_of "The quick brown fox jumps over the lazy dog" !! (N.to_nat 10 + i)%nat.
Proof.
  assert (checkFilename_spec "a.txt" = true) as Hok by (vm_compute; reflexivity).
  assert (fs state !! content_file contentPath cwd 1 "a.txt"
          = Some (NFile (bytes_of "The quick brown fox jumps over the lazy dog"))) as Hfile
    by (vm_compute; reflexivity).
  split; [done|]. split; [done|].
  apply (getFileStream_range (IUser := unit) checkFilename_spec contentPath cwd 1 "a.txt" tt
           10 19 _ state Hok Hfile).
  - lia.
  - vm_compute. reflexivity.
Defined.

(** The bytes at the offsets 10 to 19 of the file. *)
Example getFileStream_ten_bytes :
  ∃ stream st',
    getFileStream checkFilename_spec contentPath cwd (Id 1) "a.txt" tt (Some 10) (Some 19) state
      = (Resolved stream, st') ∧
    stream_bytes (fs st') stream = inr (bytes_of "brown fox ").
Proof. eexists _, _. split; vm_compute; reflexivity. Qed.

Lemma addContent_unknown_id_witness :
  rows (committed Json.parse state) !! 7 = None ∧
  ∃ st',
    addContent Json.stringify Json.parse a_text parameters tt (Id 7) state
      = (Resolved 7, st') ∧
    committed Json.parse st' = committed Json.parse state ∧
    (contentExists Json.parse 7 st').1 = Resolved false ∧
    ∃ ids, (listContent (IUser := unit) Json.parse None st').1 = Resolved ids ∧ 7 ∉ ids.
Proof.
  assert (rows (committed Json.parse state) !! 7 = None) as Hnone
    by (vm_compute; reflexivity).
  split; [done|].
  exact (addContent_unknown_id Json.stringify Json.parse a_text parameters tt None 7 state Hnone).
Defined.

(** *** The further theorems on the fixture *)

Lemma addContent_update_witness :
  rows (committed Json.parse state) !! 3 = Some (row a_text) ∧
  ∃ st',
    addContent Json.stringify Json.parse a_bare_quiz parameters tt (Id 3) state
      = (Resolved 3, st') ∧
    (getMetadata (IUser := unit) Json.parse 3 None st').1 = Resolved a_bare_quiz ∧
    (getParameters (IUser := unit) Json.parse 3 None st').1 = Resolved parameters ∧
    dom (rows (committed Json.parse st')) = dom (rows (committed Json.parse state)) ∧
    auto_increment (committed Json.parse st') = auto_increment (committed Json.parse state) ∧
    ∀ other, other ≠ 3 →
      rows (committed Json.parse st') !! other = rows (committed Json.parse state) !! other.
Proof.
  assert (rows (committed Json.parse state) !! 3 = Some (row a_text)) as Hold
    by (vm_compute; reflexivity).
  split; [done|].
  apply (addContent_update Json.stringify Json.parse a_bare_quiz parameters tt None 3 _ state Hold).
  - vm_compute. reflexivity.
  - vm_compute. reflexivity.
Defined.

Lemma addContent_insert_fresh_witness :
  ∃ st',
    addContent Json.stringify Json.parse a_bare_quiz parameters tt null state
      = (Resolved 4, st') ∧
    4 ≤ UINT_MAX ∧
    (contentExists Json.parse 4 st').1 = Resolved true ∧
    dom (rows (committed Json.parse st')) = {[4]} ∪ dom (rows (committed Json.parse state)) ∧
    auto_increment (committed Json.parse st') = N.min (4 + 1) UINT_MAX ∧
    ∀ other row, rows (committed Json.parse state) !! other = Some row →
      rows (committed Json.parse st') !! other = Some row.
Proof.
  apply (addContent_insert_fresh Json.stringify Json.parse a_bare_quiz parameters tt null state).
  - done.
  - vm_compute. reflexivity.
  - vm_compute. reflexivity.
  - apply (bool_decide_unpack _). vm_compute. exact I.
  - vm_compute. reflexivity.
Defined.

(** The last id of the column is handed out once; after that the table
    takes no new row. *)
Example addContent_last_id :
  (addContent Json.stringify Json.parse a_text parameters tt undefined last_id_free).1
    = Resolved 4294967295 ∧
  server (addContent Json.stringify Json.parse a_text parameters tt undefined last_id_free).2
    = server exhausted ∧
  (addContent Json.stringify Json.parse a_text parameters tt undefined exhausted).1
    = Rejected (SqlError "ER_DUP_ENTRY") ∧
  server (addContent Json.stringify Json.parse a_text parameters tt undefined exhausted).2
    = server exhausted.
Proof. vm_compute. done. Qed.

Lemma getUsage_null_metadata_witness :
  stored_metadata Json.parse (committed Json.parse null_state) = Some [JNull; a_quiz] ∧
  (getUsage (IUser := unit) preloads Json.parse quiz null_state).1 = Rejected TypeError.
Proof.
  assert (stored_metadata Json.parse (committed Json.parse null_state) = Some [JNull; a_quiz])
    as Hstored by (vm_compute; reflexivity).
  split; [done|].
  apply (getUsage_null_metadata (IUser := unit) preloads Json.parse quiz _ null_state Hstored).
  apply list_elem_of_here.
Defined.

Lemma getUsage_total_witness :
  ∃ usage,
    (getUsage (IUser := unit) preloads Json.parse quiz state).1 = Resolved usage ∧
    asDependency usage + asMainLibrary usage
      = count (λ d, preloads d quiz) [a_course; a_text; a_quiz] ∧
    asDependency usage + asMainLibrary usage
      ≤ N.of_nat (base.size (rows (committed Json.parse state))).
Proof.
  apply (getUsage_total (IUser := unit) preloads Json.parse quiz [a_course; a_text; a_quiz] state).
  - vm_compute. reflexivity.
  - by intros [?|[?|[?|?%elem_of_nil]%elem_of_cons]%elem_of_cons]%elem_of_cons.
Defined.


(** [a.txt] is a file, so nothing can be added below it. *)
Example addFile_below_a_file :
  (addFile (IUser := unit) checkFilename_spec contentPath cwd 1 "a.txt/b.txt" (bytes_of "b")
     None state).1 = Rejected (FsError "EEXIST") ∧
  (addFile (IUser := unit) checkFilename_spec contentPath cwd 1 "a.txt/b/c.txt" (bytes_of "c")
     None state).1 = Rejected (FsError "ENOTDIR").
Proof. vm_compute. done. Qed.

Lemma addFile_file_in_the_way_witness :
  addFile (IUser := unit) checkFilename_spec contentPath cwd 1 "a.txt/b/c.txt" (bytes_of "c")
    None state
  = (Rejected (FsError "ENOTDIR"), log (EvFs EnsureDir (dir1 ++ ["a.txt"; "b"])) state).
Proof.
  apply (addFile_file_in_the_way (IUser := unit) checkFilename_spec contentPath cwd 1
           "a.txt/b/c.txt" (bytes_of "c") None state (dir1 ++ ["a.txt"])
           (bytes_of "The quick brown fox jumps over the lazy dog")).
  - apply (bool_decide_unpack _). vm_compute. exact I.
  - vm_compute. reflexivity.
  - by exists ["b"].
  - vm_compute. reflexivity.
Defined.

Lemma addFile_then_read_witness :
  ∃ st',
    addFile (IUser := unit) checkFilename_spec contentPath cwd 1 "a.txt" (bytes_of "new") None state
      = (Resolved (), st') ∧
    (fileExists checkFilename_spec contentPath cwd (Id 1) "a.txt" st').1 = Resolved true ∧
    (getFileStats checkFilename_spec contentPath cwd directory_size (Id 1) "a.txt" tt st').1
      = Resolved {| isFile := true; size := 3 |} ∧
    ∃ stream st'',
      getFileStream checkFilename_spec contentPath cwd (Id 1) "a.txt" tt None None st'
        = (Resolved stream, st'') ∧
      stream_bytes (fs st'') stream = inr (bytes_of "new").
Proof.
  eexists. split; [vm_compute; reflexivity|].
  apply (addFile_then_read (IUser := unit) checkFilename_spec contentPath cwd directory_size
           1 "a.txt" (bytes_of "new") None tt state).
  vm_compute. reflexivity.
Defined.

Lemma addFile_frame_witness :
  fs (addFile (IUser := unit) checkFilename_spec contentPath cwd 1 "sub/c.txt" (bytes_of "c")
        None state).2 !! (dir1 ++ ["a.txt"])
  = Some (NFile (bytes_of "The quick brown fox jumps over the lazy dog")).
Proof.
  apply (addFile_frame (IUser := unit) checkFilename_spec contentPath cwd 1 "sub/c.txt"
           (bytes_of "c") None state).
  - vm_compute. discriminate.
  - vm_compute. reflexivity.
Defined.

Lemma other_content_untouched_witness :
  fs (addFile (IUser := unit) checkFilename_spec contentPath cwd 2 "a.txt" (bytes_of "x")
        None state).2 !! (content_dir contentPath cwd 1 ++ ["a.txt"])
    = fs state !! (content_dir contentPath cwd 1 ++ ["a.txt"]) ∧
  fs (deleteFile (IUser := unit) checkFilename_spec contentPath cwd 2 "a.txt" None state).2
    !! (content_dir contentPath cwd 1 ++ ["a.txt"])
    = fs state !! (content_dir contentPath cwd 1 ++ ["a.txt"]) ∧
  fs (deleteContent (IUser := unit) contentPath cwd 2 None state).2
    !! (content_dir contentPath cwd 1 ++ ["a.txt"])
    = fs state !! (content_dir contentPath cwd 1 ++ ["a.txt"]).
Proof.
  apply (other_content_untouched (IUser := unit) checkFilename_spec contentPath cwd 2 1 "a.txt"
           (bytes_of "x") None state).
  - done.
  - apply (bool_decide_unpack _). vm_compute. exact I.
  - by apply prefix_app_r.
Defined.

Lemma deleteFile_then_gone_witness :
  ∃ st',
    deleteFile (IUser := unit) checkFilename_spec contentPath cwd 1 "sub" None state
      = (Resolved (), st') ∧
    (∀ q, content_file contentPath cwd 1 "sub" `prefix_of` q → fs st' !! q = None) ∧
    (fileExists checkFilename_spec contentPath cwd (Id 1) "sub" st').1 = Resolved false ∧
    (getFileStats checkFilename_spec contentPath cwd directory_size (Id 1) "sub" tt st').1
      = Rejected (H5pError "content-file-missing" 404) ∧
    (deleteFile (IUser := unit) checkFilename_spec contentPath cwd 1 "sub" None st').1
      = Rejected (H5pError "storage-file-implementations:delete-content-file-not-found" 404).
Proof.
  apply (deleteFile_then_gone (IUser := unit) checkFilename_spec contentPath cwd
           directory_size 1 "sub" None tt state).
  - vm_compute. reflexivity.
  - apply (bool_decide_unpack _). vm_compute. exact I.
  - vm_compute. reflexivity.
Defined.

Lemma deleteContent_clears_directory_witness :
  ∃ st',
    deleteContent (IUser := unit) contentPath cwd 1 None state = (Resolved (), st') ∧
    (∀ q, content_dir contentPath cwd 1 `prefix_of` q → fs st' !! q = None) ∧
    (∀ q, ¬ content_dir contentPath cwd 1 `prefix_of` q → fs st' !! q = fs state !! q) ∧
    (listFiles contentPath cwd 1 tt st').1 = Resolved [] ∧
    (fileExists checkFilename_spec contentPath cwd (Id 1) "a.txt" st').1 = Resolved false.
Proof.
  apply (deleteContent_clears_directory (IUser := unit) checkFilename_spec contentPath cwd 1
           None tt "a.txt" state).
  - apply (bool_decide_unpack _). vm_compute. exact I.
  - vm_compute. reflexivity.
  - apply (bool_decide_unpack _). vm_compute. exact I.
Defined.

Lemma missing_file_is_404_witness :
  (fs_pathExists (content_file contentPath cwd 1 "c.txt") (fs state) = false →
   getFileStats checkFilename_spec contentPath cwd directory_size (Id 1) "c.txt" tt state
     = (Rejected (H5pError "content-file-missing" 404),
        log (EvFs PathExists (content_file contentPath cwd 1 "c.txt")) state) ∧
   getFileStream checkFilename_spec contentPath cwd (Id 1) "c.txt" tt None None state
     = (Rejected (H5pError "content-file-missing" 404),
        log (EvFs PathExists (content_file contentPath cwd 1 "c.txt")) state)) ∧
  getFileStats checkFilename_spec contentPath cwd directory_size undefined "c.txt" tt state
    = (Rejected (H5pError "content-file-missing" 404), state) ∧
  getFileStream checkFilename_spec contentPath cwd undefined "c.txt" tt None None state
    = (Rejected (H5pError "content-file-missing" 404), state).
Proof.
  apply (missing_file_is_404 checkFilename_spec contentPath cwd directory_size 1 "c.txt" tt
           None None state).
  vm_compute. reflexivity.
Defined.

Lemma getFileStats_found_witness :
  (getFileStats checkFilename_spec contentPath cwd directory_size (Id 1) "a.txt" tt state).1
  = Resolved {| isFile := true; size := 43 |}.
Proof.
  apply (getFileStats_found checkFilename_spec contentPath cwd directory_size 1 "a.txt" tt
           (NFile (bytes_of "The quick brown fox jumps over the lazy dog")) state).
  - vm_compute. reflexivity.
  - vm_compute. reflexivity.
Defined.

(** The stats of the directory [sub]. *)
Example getFileStats_of_a_directory :
  (getFileStats checkFilename_spec contentPath cwd directory_size (Id 1) "sub" tt state).1
  = Resolved {| isFile := false; size := 4096 |}.
Proof. vm_compute. reflexivity. Qed.

Lemma getFileStream_any_range_witness :
  ∃ stream st' bytes,
    getFileStream checkFilename_spec contentPath cwd (Id 1) "a.txt" tt (Some 40) (Some 99) state
      = (Resolved stream, st') ∧
    stream_bytes (fs st') stream = inr bytes ∧
    ∀ i : nat,
      bytes !! i
      = if within_end (Some 99) (default 0 (Some 40) + N.of_nat i)
        then bytes_of "The quick brown fox jumps over the lazy dog"
               !! (N.to_nat (default 0%N (Some 40%N)) + i)%nat
        else None.
Proof.
  apply (getFileStream_any_range checkFilename_spec contentPath cwd 1 "a.txt" tt
           (Some 40) (Some 99) _ state).
  - vm_compute. reflexivity.
  - vm_compute. reflexivity.
  - vm_compute. reflexivity.
  - vm_compute. reflexivity.
  - intros s e [= <-] [= <-]. lia.
Defined.

(** A range that reaches beyond the file gives what is left of it. *)
Example getFileStream_beyond_the_end :
  ∃ stream st',
    getFileStream checkFilename_spec contentPath cwd (Id 1) "a.txt" tt (Some 40) (Some 99) state
      = (Resolved stream, st') ∧
    stream_bytes (fs st') stream = inr (bytes_of "dog").
Proof. eexists _, _. split; vm_compute; reflexivity. Qed.

Lemma getFileStream_reversed_range_witness :
  (getFileStream checkFilename_spec contentPath cwd (Id 1) "a.txt" tt (Some 5) (Some 2) state).1
  = Rejected RangeError.
Proof.
  apply (getFileStream_reversed_range checkFilename_spec contentPath cwd 1 "a.txt" tt 5 2 state).
  - vm_compute. reflexivity.
  - lia.
Defined.

Lemma addFile_then_listed_witness :
  ∃ names,
    (listFiles contentPath cwd 3 tt
       (addFile (IUser := unit) checkFilename_spec contentPath cwd 3 "images/logo.png"
          (bytes_of "png") None state).2).1 = Resolved names ∧
    "images/logo.png" ∈ names.
Proof.
  apply (addFile_then_listed (IUser := unit) checkFilename_spec contentPath cwd 3
           "images/logo.png" (bytes_of "png") None tt state).
  - vm_compute. reflexivity.
  - apply (bool_decide_unpack _). vm_compute. exact I.
  - vm_compute. reflexivity.
Defined.

End OnTheFixture.
